(** * Multi-timeframe candlestick analyzer: a shallow embedding

    This file embeds the pure core of [xauusd_candles_modes.py]: the candle
    geometry, the seven pattern detectors, the per-timeframe analyzer and the
    cross-timeframe aggregator, and proves properties of them.

    Numbers.  Every price, score and weight of the program is a Python float,
    that is a binary64 number, and every finite binary64 number is a
    rational.  Floats are therefore values of [Q]; the comparison operators
    of the program become the boolean comparisons of [Q], and [int(...)] is
    truncation towards zero.  The detectors and the analyzer only compare,
    subtract and scale prices, and are stated in exact arithmetic.  The
    aggregator is given twice: [aggregate_signals] computes exactly, and
    [fl_aggregate_signals] rounds the result of every arithmetic operation;
    with [round_binary64] it is the computation of the program, with the
    identity it is [aggregate_signals].  What is stated of
    [aggregate_signals] is to be read up to these roundings; what depends on
    them (the integer confidence) is stated of [fl_aggregate_signals].

    Errors.  The two places where the Python code could raise ([df.loc] on a
    missing label and a float division by zero) are kept as an explicit
    error result, so that "returns a result" is a statement of its own. *)

From stdpp Require Import gmap strings.
From Stdlib Require Import QArith Qabs Qminmax Qround Qpower Lqa Lia DecimalString.

Local Open Scope Q_scope.

(** ** Python values *)

Inductive PyError : Set :=
| KeyError
| ZeroDivisionError.

Inductive result (A : Type) : Type :=
| Ok (a : A)
| Raise (e : PyError).

Arguments Ok {A} a.
Arguments Raise {A} e.

Definition bind {A B : Type} (m : result A) (k : A -> result B) : result B :=
  match m with
  | Ok a => k a
  | Raise e => Raise e
  end.

Notation "'do' x <~ m 'in' k" := (bind m (fun x => k))
  (at level 10, x name, m at level 100, k at level 200).

(** [a < b] on floats. *)
Definition Qltb (a b : Q) : bool := negb (Qle_bool b a).

(** [x / y] on Python floats raises when [y] is zero. *)
Definition py_div (x y : Q) : result Q :=
  if Qeq_bool y 0 then Raise ZeroDivisionError else Ok (x / y).

(** [int(x)]: truncation towards zero. *)
Definition py_int (x : Q) : Z := Z.quot (Qnum x) (Zpos (Qden x)).

(** [str] of a float whose value is integral, as in ["score=20.0"].  The
    running score of the analyzer only ever holds such values. *)
Definition py_float_str (x : Q) : string :=
  let r := Qred x in
  let n := NilZero.string_of_int (Z.to_int (Qnum r)) in
  if Pos.eqb (Qden r) 1 then n +:+ ".0"
  else n +:+ "/" +:+ NilZero.string_of_uint (Pos.to_uint (Qden r)).

(** ** Configuration *)

Definition TF_WEIGHTS : gmap string Q :=
  list_to_map [("M15"%string, 0.8); ("H1"%string, 1.0);
               ("H4"%string, 1.5); ("D1"%string, 2.0)].

Definition DOJI_PCT : Q := 0.1.
Definition HAMMER_BODY_MAX : Q := 0.35.
Definition SHADOW_RATIO : Q := 2.0.

(** ** Candles *)

(** One row of the OHLC frame.  [Date] is the timestamp column that
    [reset_index] produces; it is absent when the index had another name. *)
Record Row : Set := mkRow {
  Date : option Z;
  Open : Q;
  High : Q;
  Low : Q;
  Close : Q
}.

Record Components : Set := mkComponents {
  c_open : Q;
  c_high : Q;
  c_low : Q;
  c_close : Q;
  body : Q;
  upper : Q;
  lower : Q;
  range : Q
}.

Definition candle_components (row : Row) : Components :=
  let o := Open row in
  let h := High row in
  let l := Low row in
  let c := Close row in
  let body := Qabs (c - o) in
  let upper_shadow := h - Qmax c o in
  let lower_shadow := Qmin c o - l in
  let range_ := if Qltb l h then h - l else 1e-9 in
  {| c_open := o; c_high := h; c_low := l; c_close := c; body := body;
     upper := upper_shadow; lower := lower_shadow; range := range_ |}.

(** ** Pattern detectors *)

Definition is_doji_pct (row : Row) (pct : Q) : bool :=
  let comp := candle_components row in
  Qle_bool (body comp) (pct * range comp).

(** [is_doji(row)] with the default threshold. *)
Definition is_doji (row : Row) : bool := is_doji_pct row DOJI_PCT.

Definition is_bullish_engulfing (prev_row : option Row) (row : Row) : bool :=
  match prev_row with
  | None => false
  | Some prev_row =>
    if negb (Qltb (Close prev_row) (Open prev_row) && Qltb (Open row) (Close row))
    then false
    else
      let prev_low := Qmin (Open prev_row) (Close prev_row) in
      let prev_high := Qmax (Open prev_row) (Close prev_row) in
      let cur_low := Qmin (Open row) (Close row) in
      let cur_high := Qmax (Open row) (Close row) in
      Qle_bool cur_low prev_low && Qle_bool prev_high cur_high
  end.

Definition is_bearish_engulfing (prev_row : option Row) (row : Row) : bool :=
  match prev_row with
  | None => false
  | Some prev_row =>
    if negb (Qltb (Open prev_row) (Close prev_row) && Qltb (Close row) (Open row))
    then false
    else
      let prev_low := Qmin (Open prev_row) (Close prev_row) in
      let prev_high := Qmax (Open prev_row) (Close prev_row) in
      let cur_low := Qmin (Open row) (Close row) in
      let cur_high := Qmax (Open row) (Close row) in
      Qle_bool cur_low prev_low && Qle_bool prev_high cur_high
  end.

Definition is_hammer (row : Row) : bool :=
  let comp := candle_components row in
  if Qeq_bool (body comp) 0 then false
  else
    let body_to_range := body comp / range comp in
    Qle_bool body_to_range HAMMER_BODY_MAX
    && Qle_bool (SHADOW_RATIO * body comp) (lower comp)
    && Qle_bool (upper comp) (body comp * 1.0).

Definition is_shooting_star (row : Row) : bool :=
  let comp := candle_components row in
  if Qeq_bool (body comp) 0 then false
  else
    let body_to_range := body comp / range comp in
    Qle_bool body_to_range HAMMER_BODY_MAX
    && Qle_bool (SHADOW_RATIO * body comp) (upper comp)
    && Qle_bool (lower comp) (body comp * 1.0).

Definition is_morning_star (prev2 prev1 : option Row) (cur : Row) : bool :=
  match prev2, prev1 with
  | Some prev2, Some prev1 =>
    if negb (Qltb (Close prev2) (Open prev2)) then false
    else if negb (is_doji prev1) then false
    else if negb (Qltb (Open cur) (Close cur)) then false
    else
      let prev2_mid := (Open prev2 + Close prev2) / 2 in
      Qltb prev2_mid (Close cur)
  | _, _ => false
  end.

Definition is_evening_star (prev2 prev1 : option Row) (cur : Row) : bool :=
  match prev2, prev1 with
  | Some prev2, Some prev1 =>
    if negb (Qltb (Open prev2) (Close prev2)) then false
    else if negb (is_doji prev1) then false
    else if negb (Qltb (Close cur) (Open cur)) then false
    else
      let prev2_mid := (Open prev2 + Close prev2) / 2 in
      Qltb (Close cur) prev2_mid
  | _, _ => false
  end.

(** ** Per-timeframe analysis *)

Inductive Signal : Set := BUY | SELL | HOLD.

Inductive PatternName : Set :=
| Doji
| Hammer
| ShootingStar
| BullishEngulfing
| BearishEngulfing
| MorningStar
| EveningStar.

(** What a pattern is stamped with: [cur['Date']] when the row has that
    column, the positional index [df.index[last_idx]] otherwise. *)
Inductive Stamp : Set :=
| AtDate (d : Z)
| AtIndex (i : Z).

Record TimeframeResult : Set := mkResult {
  patterns : list (PatternName * Stamp);
  signal : Signal;
  score : Q;
  explain : string;
  last_close : option Q;
  last_open : option Q
}.

(** [df.tail(n)] *)
Definition df_tail (n : nat) (df : list Row) : list Row :=
  drop (length df - n) df.

(** [df.loc[i]] after [reset_index]: the labels are [0 .. len-1]. *)
Definition loc (df : list Row) (i : Z) : result Row :=
  if (i <? 0)%Z then Raise KeyError
  else match df !! Z.to_nat i with
       | Some r => Ok r
       | None => Raise KeyError
       end.

(** [df.loc[i] if i >= 0 else None] *)
Definition loc_or_none (df : list Row) (i : Z) : result (option Row) :=
  if (0 <=? i)%Z then (do r <~ loc df i in Ok (Some r)) else Ok None.

Definition stamp_of (cur : Row) (last_idx : Z) : Stamp :=
  match Date cur with
  | Some d => AtDate d
  | None => AtIndex last_idx
  end.

(** The pair [(patterns, signal_score)] that the analyzer updates. *)
Definition Acc : Set := (list (PatternName * Stamp) * Q)%type.

Definition found (p : PatternName) (st : Stamp) (delta : Q) (acc : Acc) : Acc :=
  (acc.1 ++ [(p, st)], acc.2 + delta).

Definition doji_step (prev : option Row) (cur : Row) (st : Stamp) (acc : Acc) : Acc :=
  if is_doji cur then
    let acc := (acc.1 ++ [(Doji, st)], acc.2) in
    match prev with
    | Some prev =>
      if Qltb (Close prev) (Open prev) then (acc.1, acc.2 + 2)
      else (acc.1, acc.2 - 2)
    | None => acc
    end
  else acc.

Definition hammer_step (cur : Row) (st : Stamp) (acc : Acc) : Acc :=
  if is_hammer cur then found Hammer st 20 acc else acc.

Definition shooting_star_step (cur : Row) (st : Stamp) (acc : Acc) : Acc :=
  if is_shooting_star cur then found ShootingStar st (-20) acc else acc.

Definition bullish_engulfing_step (prev : option Row) (cur : Row) (st : Stamp)
    (acc : Acc) : Acc :=
  if is_bullish_engulfing prev cur then found BullishEngulfing st 30 acc else acc.

Definition bearish_engulfing_step (prev : option Row) (cur : Row) (st : Stamp)
    (acc : Acc) : Acc :=
  if is_bearish_engulfing prev cur then found BearishEngulfing st (-30) acc else acc.

Definition morning_star_step (prev2 prev : option Row) (cur : Row) (st : Stamp)
    (acc : Acc) : Acc :=
  if is_morning_star prev2 prev cur then found MorningStar st 35 acc else acc.

Definition evening_star_step (prev2 prev : option Row) (cur : Row) (st : Stamp)
    (acc : Acc) : Acc :=
  if is_evening_star prev2 prev cur then found EveningStar st (-35) acc else acc.

(** The detectors that run after the Doji block, in program order. *)
Definition later_steps (prev2 prev : option Row) (cur : Row) (st : Stamp)
    (acc : Acc) : Acc :=
  evening_star_step prev2 prev cur st
    (morning_star_step prev2 prev cur st
      (bearish_engulfing_step prev cur st
        (bullish_engulfing_step prev cur st
          (shooting_star_step cur st
            (hammer_step cur st acc))))).

Definition detect (prev2 prev : option Row) (cur : Row) (st : Stamp) : Acc :=
  later_steps prev2 prev cur st (doji_step prev cur st ([], 0)).

Definition signal_of_score (signal_score : Q) : Signal :=
  if Qle_bool 25 signal_score then BUY
  else if Qle_bool signal_score (-25) then SELL
  else HOLD.

Definition no_data : TimeframeResult :=
  {| patterns := []; signal := HOLD; score := 0; explain := "no data";
     last_close := None; last_open := None |}.

(** [df] is [None] when the fetch failed or returned nothing. *)
Definition analyze_timeframe (df : option (list Row)) : result TimeframeResult :=
  match df with
  | None => Ok no_data
  | Some [] => Ok no_data
  | Some df =>
    let df := df_tail 50 df in
    let last_idx := (Z.of_nat (length df) - 1)%Z in
    do cur <~ loc df last_idx in
    do prev <~ loc_or_none df (last_idx - 1) in
    do prev2 <~ loc_or_none df (last_idx - 2) in
    let acc := detect prev2 prev cur (stamp_of cur last_idx) in
    let signal_score := acc.2 in
    Ok {| patterns := acc.1;
          signal := signal_of_score signal_score;
          score := signal_score;
          explain := "score=" +:+ py_float_str signal_score;
          last_close := Some (Close cur);
          last_open := Some (Open cur) |}
  end.

(** ** Cross-timeframe aggregation *)

Record Detail : Set := mkDetail {
  pattern_signal : Signal;
  detail_score : Q;
  contribution : Q;
  detail_patterns : list (PatternName * Stamp)
}.

(** The returned dict.  The key [avg] is absent from the early return. *)
Record AggregateDecision : Type := mkDecision {
  final_signal : Signal;
  confidence : Z;
  avg : option Q;
  details : gmap string Detail
}.

(** The three variables the loop updates. *)
Record AggState : Type := mkAggState {
  total : Q;
  weight_sum : Q;
  acc_details : gmap string Detail
}.

Definition polarity_of (s : Signal) : Q :=
  match s with
  | BUY => 1
  | SELL => -1
  | HOLD => 0
  end.

(** [weights.get(tf, 1.0)] *)
Definition weight_of (weights : gmap string Q) (tf : string) : Q :=
  default 1.0 (weights !! tf).

Definition mag_norm_of (res : TimeframeResult) : Q :=
  let magnitude := Qabs (score res) in
  Qmin 100.0 magnitude / 100.0.

Definition contribution_of (weights : gmap string Q) (tf : string)
    (res : TimeframeResult) : Q :=
  polarity_of (signal res) * mag_norm_of res * weight_of weights tf.

(** One iteration of [for tf, res in tf_results.items()]. *)
Definition agg_step (weights : gmap string Q) (st : AggState)
    (item : string * TimeframeResult) : AggState :=
  let tf := item.1 in
  let res := item.2 in
  let w := weight_of weights tf in
  let contribution := contribution_of weights tf res in
  {| total := total st + contribution;
     weight_sum := weight_sum st + w;
     acc_details :=
       <[tf := {| pattern_signal := signal res; detail_score := score res;
                  contribution := contribution;
                  detail_patterns := patterns res |}]> (acc_details st) |}.

Definition agg_init : AggState :=
  {| total := 0; weight_sum := 0; acc_details := ∅ |}.

Definition agg_loop (weights : gmap string Q)
    (tf_results : list (string * TimeframeResult)) : AggState :=
  foldl (agg_step weights) agg_init tf_results.

Definition final_of_avg (avg : Q) : Signal :=
  if Qle_bool 0.25 avg then BUY
  else if Qle_bool avg (-0.25) then SELL
  else HOLD.

(** The confidence in exact arithmetic; [fl_confidence_of_avg] rounds the
    product and the sum as the program does. *)
Definition confidence_of_avg (avg : Q) : Z :=
  py_int (Qmin 95 (Qmax 10 (Qabs avg * 100 + 10))).

(** [tf_results] lists the items of the input dict in insertion order.
    The sums, the products and the quotient are exact here;
    [fl_aggregate_signals] rounds each of them. *)
Definition aggregate_signals (tf_results : list (string * TimeframeResult))
    (weights : gmap string Q) : result AggregateDecision :=
  let st := agg_loop weights tf_results in
  if Qeq_bool (weight_sum st) 0 then
    Ok {| final_signal := HOLD; confidence := 10; avg := None;
          details := acc_details st |}
  else
    do avg <~ py_div (total st) (weight_sum st) in
    Ok {| final_signal := final_of_avg avg;
          confidence := confidence_of_avg avg;
          avg := Some avg;
          details := acc_details st |}.

(** ** Auxiliary definitions used in the statements *)

(** The dict built by the last statement of [analyze_timeframe]. *)
Definition timeframe_result (acc : Acc) (cur : Row) : TimeframeResult :=
  {| patterns := acc.1;
     signal := signal_of_score acc.2;
     score := acc.2;
     explain := "score=" +:+ py_float_str acc.2;
     last_close := Some (Close cur);
     last_open := Some (Open cur) |}.

(** The label of the last row of [df.tail(50)] after [reset_index]. *)
Definition last_index (df : list Row) : Z :=
  (Z.of_nat (min 50 (length df)) - 1)%Z.

(** What a detector adds to the running score. *)
Definition adds (fires : bool) (delta : Q) : Q := if fires then delta else 0.

(** The sum of what the six detectors after the Doji block add. *)
Definition later_score (prev2 prev : option Row) (cur : Row) : Q :=
  adds (is_hammer cur) 20
  + adds (is_shooting_star cur) (-20)
  + adds (is_bullish_engulfing prev cur) 30
  + adds (is_bearish_engulfing prev cur) (-30)
  + adds (is_morning_star prev2 prev cur) 35
  + adds (is_evening_star prev2 prev cur) (-35).


(** The Morning Star condition in the words of the specification. *)
Definition morning_star_as_specified (prev2 prev1 cur : Row) : Prop :=
  (Close prev2 < Open prev2 /\ is_doji prev2 = false)
  /\ is_doji prev1 = true
  /\ (Open cur < Close cur /\ (Open prev2 + Close prev2) / 2 < Close cur).

Definition hammer_row : Row := mkRow None 100 101 95 101.
Definition bearish_row : Row := mkRow None 104 105 99 100.
Definition bearish_doji_row : Row := mkRow None 100.5 110 90 100.
Definition doji_row : Row := mkRow None 100 101 99 100.
Definition bullish_row : Row := mkRow None 100 106 99.5 105.

(** [clamp(x, lo, hi)] in the words of the specification. *)
Definition clamp (x lo hi : Q) : Q := Qmin hi (Qmax lo x).

(** Python's [round] with one argument: the nearest integer, a tie going to
    the even one. *)
Definition round_half_even (x : Q) : Z :=
  let f := Qfloor x in
  match Qcompare (x - inject_Z f) 0.5 with
  | Lt => f
  | Gt => (f + 1)%Z
  | Eq => if Z.even f then f else (f + 1)%Z
  end.

(** The two-timeframe input of the specification: M15 says BUY with score
    40, H4 says SELL with score -50. *)
Definition scenario_3 : list (string * TimeframeResult) :=
  [("M15"%string, mkResult [] BUY 40 "score=40.0" None None);
   ("H4"%string, mkResult [] SELL (-50) "score=-50.0" None None)].

(** ** Fetching and the main runner *)

(** A row of the frame that [ticker.history] returns; a cell is [None] when
    it holds NaN. *)
Record RawRow : Set := mkRawRow {
  raw_Date : option Z;
  raw_Open : option Q;
  raw_High : option Q;
  raw_Low : option Q;
  raw_Close : option Q;
  raw_Volume : option Q
}.

(** What [dropna] does to one row of the five selected columns. *)
Definition dropna_row (r : RawRow) : option Row :=
  match raw_Open r, raw_High r, raw_Low r, raw_Close r, raw_Volume r with
  | Some o, Some h, Some l, Some c, Some _ => Some (mkRow (raw_Date r) o h l c)
  | _, _, _, _, _ => None
  end.

(** [fetch_ohlc], given the frame that [ticker.history] returned. *)
Definition fetch_ohlc (history : list RawRow) : option (list Row) :=
  match history with
  | [] => None
  | _ => Some (omap dropna_row history)
  end.

Record TfConfig : Set := mkTfConfig {
  interval : string;
  period : string
}.

Definition SYMBOL : string := "GC=F".

Definition TIMEFRAMES : list (string * TfConfig) :=
  [("M5"%string, mkTfConfig "5m" "1d"); ("M15"%string, mkTfConfig "15m" "7d")].

(** The dict written to the analysis file, without its timestamp. *)
Record Output : Type := mkOutput {
  out_symbol : string;
  timeframe_results : list (string * TimeframeResult);
  final : AggregateDecision
}.

Definition signal_str (s : Signal) : string :=
  match s with
  | BUY => "BUY"
  | SELL => "SELL"
  | HOLD => "HOLD"
  end.

(** [str] of an int. *)
Definition py_int_str (z : Z) : string := NilZero.string_of_int (Z.to_int z).

(** The two fields that the runner folds into the latest-signal document. *)
Definition new_signal (agg : AggregateDecision) : gmap string string :=
  <["candle_Signal"%string := signal_str (final_signal agg)]>
    (<["candle_Confidence"%string := py_int_str (confidence agg) +:+ "%"]> ∅).

(** The loop of the runner.  [history symbol cfg] is what [ticker.history]
    returns for that interval and period, [None] when the fetch raises; the
    [try] turns an exception into [df = None].  [timeframes] lists the items
    of the dict, whose keys are distinct. *)
Definition run_timeframes (history : string -> TfConfig -> option (list RawRow))
    (symbol : string) (timeframes : list (string * TfConfig))
    : result (list (string * TimeframeResult)) :=
  foldl (fun acc item =>
           do results <~ acc in
           let df := match history symbol item.2 with
                     | Some raw => fetch_ohlc raw
                     | None => None
                     end in
           do res <~ analyze_timeframe df in
           Ok (results ++ [(item.1, res)]))
        (Ok []) timeframes.

(** [run_candlestick_analysis]: the output dict and the new content of the
    latest-signal document.  [existing] is the content read from that
    document, [None] when it is missing or unreadable. *)
Definition run_candlestick_analysis
    (history : string -> TfConfig -> option (list RawRow))
    (existing : option (gmap string string))
    (symbol : string) (timeframes : list (string * TfConfig))
    : result (Output * gmap string string) :=
  do results <~ run_timeframes history symbol timeframes in
  do agg <~ aggregate_signals results TF_WEIGHTS in
  let output := {| out_symbol := symbol; timeframe_results := results;
                   final := agg |} in
  let existing_data := default ∅ existing in
  Ok (output, new_signal agg ∪ existing_data).

(** What the price pipeline later reads from the latest-signal document:
    [latest_data.get("candle_Signal", "N/A")] and the same for the
    confidence. *)
Definition pipeline_candle_fields (latest_data : gmap string string)
    : string * string :=
  (default "N/A"%string (latest_data !! "candle_Signal"%string),
   default "N/A"%string (latest_data !! "candle_Confidence"%string)).

(** ** More auxiliary definitions used in the statements *)

(** The candle reflected in the price axis: highs become lows. *)
Definition mirror (r : Row) : Row :=
  mkRow (Date r) (- Open r) (- Low r) (- High r) (- Close r).

Definition opposite (s : Signal) : Signal :=
  match s with
  | BUY => SELL
  | SELL => BUY
  | HOLD => HOLD
  end.

(** No inconsistent candle: the high is not below the open or the close, the
    low is not above them. *)
Definition well_formed (r : Row) : Prop :=
  Qmax (Close r) (Open r) <= High r /\ Low r <= Qmin (Close r) (Open r).

Definition names (r : TimeframeResult) : list PatternName :=
  (patterns r).*1.

(** A window on which Doji, Hammer, Bullish Engulfing and Morning Star all
    fire. *)
Definition strongest_window : list Row :=
  [mkRow None 110 110 100 100;
   mkRow None 100.5 103 97 100.25;
   mkRow None 100 108 40 106].

(** What the Doji block adds to the running score. *)
Definition doji_score (prev : option Row) (cur : Row) : Q :=
  if is_doji cur then
    match prev with
    | Some prev => if Qltb (Close prev) (Open prev) then 2 else -2
    | None => 0
    end
  else 0.

(** The frame that one iteration of the runner passes to the analyzer. *)
Definition fetched (history : string -> TfConfig -> option (list RawRow))
    (symbol : string) (cfg : TfConfig) : option (list Row) :=
  match history symbol cfg with
  | Some raw => fetch_ohlc raw
  | None => None
  end.

(** The points of a pattern; those of a Doji depend on the candle before
    it and are counted apart. *)
Definition points (p : PatternName) : Q :=
  match p with
  | Doji => 0
  | Hammer => 20
  | ShootingStar => -20
  | BullishEngulfing => 30
  | BearishEngulfing => -30
  | MorningStar => 35
  | EveningStar => -35
  end.

Definition sum_points (l : list PatternName) : Q :=
  foldr (fun p s => points p + s) 0 l.

(** The names of the detectors that fire, in the order of the program. *)
Definition firing (prev2 prev : option Row) (cur : Row) : list PatternName :=
  (if is_doji cur then [Doji] else [])
  ++ (if is_hammer cur then [Hammer] else [])
  ++ (if is_shooting_star cur then [ShootingStar] else [])
  ++ (if is_bullish_engulfing prev cur then [BullishEngulfing] else [])
  ++ (if is_bearish_engulfing prev cur then [BearishEngulfing] else [])
  ++ (if is_morning_star prev2 prev cur then [MorningStar] else [])
  ++ (if is_evening_star prev2 prev cur then [EveningStar] else []).

(** ** Binary64 rounding *)

(** The floats of the program are IEEE 754 binary64 numbers: every finite
    one is a rational, and the result of an arithmetic operation is the
    exact result rounded to the nearest representable number, a tie going
    to the even significand.  The definitions below take the rounding as a
    parameter [rnd]; [round_binary64] is the rounding of the program and the
    identity gives back the exact arithmetic used above.  Infinities and
    NaN are not modelled: [round_binary64] rounds beyond the largest finite
    float as if the exponent range had no upper end. *)

(** [floor (log2 q)] for a positive [q]. *)
Definition ilog2 (q : Q) : Z :=
  let c := (Z.log2 (Qnum q) - Z.log2 (Zpos (Qden q)))%Z in
  if Qle_bool (2 ^ c) q then c else (c - 1)%Z.

(** The exponent of the unit in the last place of the binade of [q]:
    53 significant bits, and no exponent below that of the subnormals. *)
Definition ulp_exponent (q : Q) : Z :=
  Z.max (-1074) (ilog2 (Qabs q) - 52).

(** Round to the nearest multiple of [2 ^ e], ties to even. *)
Definition round_at (e : Z) (q : Q) : Q :=
  inject_Z (round_half_even (q / 2 ^ e)) * 2 ^ e.

Definition round_binary64 (q : Q) : Q := round_at (ulp_exponent q) q.

(** ** The aggregation with rounded operations *)

(** One iteration of the loop; every [+], [*] and [/] on floats is
    rounded, [abs], [min] and the comparisons are exact. *)
Definition fl_agg_step (rnd : Q -> Q) (weights : gmap string Q) (st : AggState)
    (item : string * TimeframeResult) : AggState :=
  let tf := item.1 in
  let res := item.2 in
  let w := weight_of weights tf in
  let weight_sum := rnd (weight_sum st + w) in
  let polarity := polarity_of (signal res) in
  let magnitude := Qabs (score res) in
  let mag_norm := rnd (Qmin 100.0 magnitude / 100.0) in
  let contribution := rnd (rnd (polarity * mag_norm) * w) in
  {| total := rnd (total st + contribution);
     weight_sum := weight_sum;
     acc_details :=
       <[tf := {| pattern_signal := signal res; detail_score := score res;
                  contribution := contribution;
                  detail_patterns := patterns res |}]> (acc_details st) |}.

Definition fl_agg_loop (rnd : Q -> Q) (weights : gmap string Q)
    (tf_results : list (string * TimeframeResult)) : AggState :=
  foldl (fl_agg_step rnd weights) agg_init tf_results.

(** [int(min(95, max(10, (abs(avg) * 100) + 10)))] *)
Definition fl_confidence_of_avg (rnd : Q -> Q) (avg : Q) : Z :=
  py_int (Qmin 95 (Qmax 10 (rnd (rnd (Qabs avg * 100) + 10)))).

Definition fl_aggregate_signals (rnd : Q -> Q)
    (tf_results : list (string * TimeframeResult))
    (weights : gmap string Q) : result AggregateDecision :=
  let st := fl_agg_loop rnd weights tf_results in
  if Qeq_bool (weight_sum st) 0 then
    Ok {| final_signal := HOLD; confidence := 10; avg := None;
          details := acc_details st |}
  else
    do avg <~ (do q <~ py_div (total st) (weight_sum st) in Ok (rnd q)) in
    Ok {| final_signal := final_of_avg avg;
          confidence := fl_confidence_of_avg rnd avg;
          avg := Some avg;
          details := acc_details st |}.

(** The weight table as the program holds it: each literal is the nearest
    binary64 number. *)
Definition TF_WEIGHTS_binary64 : gmap string Q :=
  round_binary64 <$> TF_WEIGHTS.

(** [aggregate_signals] as the program computes it. *)
Definition aggregate_signals_binary64
    (tf_results : list (string * TimeframeResult)) : result AggregateDecision :=
  fl_aggregate_signals round_binary64 tf_results TF_WEIGHTS_binary64.

(** A result with a given signal and score. *)
Definition result_with (s : Signal) (sc : Q) : TimeframeResult :=
  mkResult [] s sc "" None None.

(** * Properties *)

(** ** Boolean comparisons *)

Lemma Qle_bool_false (x y : Q) : Qle_bool x y = false <-> y < x.
Proof.
  rewrite <- not_true_iff_false, Qle_bool_iff. split.
  - apply Qnot_le_lt.
  - apply Qlt_not_le.
Qed.

Lemma Qltb_true (x y : Q) : Qltb x y = true <-> x < y.
Proof. unfold Qltb. rewrite negb_true_iff. apply Qle_bool_false. Qed.

Lemma Qltb_false (x y : Q) : Qltb x y = false <-> y <= x.
Proof. unfold Qltb. rewrite negb_false_iff. apply Qle_bool_iff. Qed.

Lemma Qeq_bool_false (x y : Q) : Qeq_bool x y = false <-> ~ x == y.
Proof. rewrite <- not_true_iff_false, Qeq_bool_iff. reflexivity. Qed.

(** Turn every boolean comparison among the hypotheses into its
    proposition. *)
Ltac qprop :=
  repeat match goal with
  | H : Qle_bool _ _ = true |- _ => apply Qle_bool_iff in H
  | H : Qle_bool _ _ = false |- _ => apply Qle_bool_false in H
  | H : Qltb _ _ = true |- _ => apply Qltb_true in H
  | H : Qltb _ _ = false |- _ => apply Qltb_false in H
  | H : Qeq_bool _ _ = true |- _ => apply Qeq_bool_iff in H
  | H : Qeq_bool _ _ = false |- _ => apply Qeq_bool_false in H
  end.

(** ** Engulfing patterns *)

(** C6: for every pair of (previous, current) candles, the Bullish Engulfing
    and the Bearish Engulfing predicates never both hold. *)
Theorem engulfing_mutually_exclusive (prev : option Row) (cur : Row) :
  is_bullish_engulfing prev cur && is_bearish_engulfing prev cur = false.
Proof.
  destruct prev as [p|]; [|reflexivity].
  unfold is_bullish_engulfing, is_bearish_engulfing.
  destruct (Qltb (Close p) (Open p)) eqn:Hbear; [|reflexivity].
  destruct (Qltb (Open p) (Close p)) eqn:Hbull.
  - qprop. lra.
  - cbn. apply andb_false_r.
Qed.

(** ** The terminal cases *)

(** C7: for a missing or an empty series the analyzer returns the record
    with signal HOLD, score 0, no patterns and the explanation "no data";
    it is a result, not an error. *)
Theorem analyze_timeframe_no_data :
  let r := {| patterns := []; signal := HOLD; score := 0; explain := "no data";
              last_close := None; last_open := None |} in
  analyze_timeframe None = Ok r /\ analyze_timeframe (Some []) = Ok r.
Proof. split; reflexivity. Qed.

(** C8: for the empty input mapping the aggregator returns signal HOLD with
    confidence 10 (and empty details); it is a result, not an error. *)
Theorem aggregate_signals_empty (weights : gmap string Q) :
  aggregate_signals [] weights =
  Ok {| final_signal := HOLD; confidence := 10; avg := None; details := ∅ |}.
Proof. reflexivity. Qed.

(** ** The trailing window *)

Lemma df_tail_length (n : nat) (df : list Row) :
  length (df_tail n df) = min n (length df).
Proof. unfold df_tail. rewrite length_drop. lia. Qed.

Lemma df_tail_reverse_lookup (n k : nat) (df : list Row) :
  (k < n)%nat -> reverse (df_tail n df) !! k = reverse df !! k.
Proof.
  intros Hk.
  destruct (decide (k < length (df_tail n df))%nat) as [Hlt|Hge].
  - pose proof (df_tail_length n df) as Hlen.
    rewrite !reverse_lookup by lia.
    unfold df_tail in *. rewrite lookup_drop. f_equal. lia.
  - pose proof (df_tail_length n df) as Hlen.
    rewrite !lookup_ge_None_2; [reflexivity| |];
      rewrite length_reverse; lia.
Qed.

Lemma loc_from_end (w : list Row) (k : nat) (r : Row) :
  reverse w !! k = Some r ->
  loc w (Z.of_nat (length w) - 1 - Z.of_nat k) = Ok r.
Proof.
  intros [Hr Hk]%reverse_lookup_Some. unfold loc.
  destruct (Z.ltb_spec (Z.of_nat (length w) - 1 - Z.of_nat k) 0); [lia|].
  replace (Z.to_nat (Z.of_nat (length w) - 1 - Z.of_nat k))
    with (length w - S k)%nat by lia.
  rewrite Hr. reflexivity.
Qed.

Lemma loc_or_none_from_end (w : list Row) (k : nat) :
  loc_or_none w (Z.of_nat (length w) - 1 - Z.of_nat k) = Ok (reverse w !! k).
Proof.
  unfold loc_or_none.
  destruct (Z.leb_spec 0 (Z.of_nat (length w) - 1 - Z.of_nat k)) as [Hle|Hlt].
  - destruct (reverse w !! k) as [r|] eqn:Hr.
    + rewrite (loc_from_end _ _ _ Hr). reflexivity.
    + apply lookup_ge_None in Hr. rewrite length_reverse in Hr. lia.
  - rewrite lookup_ge_None_2; [reflexivity|]. rewrite length_reverse. lia.
Qed.

(** The analyzer on a non-empty frame: the detectors run on the last row and
    the (up to) two rows before it, and no exception is raised. *)
Lemma analyze_timeframe_window (df : list Row) (cur : Row) :
  reverse df !! 0%nat = Some cur ->
  analyze_timeframe (Some df) =
  Ok (timeframe_result
        (detect (reverse df !! 2%nat) (reverse df !! 1%nat) cur
                (stamp_of cur (last_index df)))
        cur).
Proof.
  intros Hcur.
  destruct df as [|r df].
  { rewrite reverse_nil in Hcur. discriminate. }
  unfold analyze_timeframe.
  set (w := df_tail 50 (r :: df)).
  assert (Hw0 : reverse w !! 0%nat = Some cur)
    by (unfold w; rewrite df_tail_reverse_lookup by lia; exact Hcur).
  replace (Z.of_nat (length w) - 1)%Z
    with (Z.of_nat (length w) - 1 - Z.of_nat 0)%Z at 1 by lia.
  rewrite (loc_from_end _ _ _ Hw0). cbn [bind].
  replace (Z.of_nat (length w) - 1 - 1)%Z
    with (Z.of_nat (length w) - 1 - Z.of_nat 1)%Z by lia.
  rewrite loc_or_none_from_end. cbn [bind].
  replace (Z.of_nat (length w) - 1 - 2)%Z
    with (Z.of_nat (length w) - 1 - Z.of_nat 2)%Z by lia.
  rewrite loc_or_none_from_end. cbn [bind].
  unfold w. rewrite !df_tail_reverse_lookup by lia.
  unfold last_index. rewrite <- (df_tail_length 50 (r :: df)).
  reflexivity.
Qed.

(** [analyze_timeframe] never raises. *)
Lemma analyze_timeframe_total (df : option (list Row)) :
  exists r, analyze_timeframe df = Ok r.
Proof.
  destruct df as [df|]; [|eexists; reflexivity].
  destruct (reverse df !! 0%nat) as [cur|] eqn:Hcur.
  - eexists. apply (analyze_timeframe_window _ _ Hcur).
  - apply lookup_ge_None in Hcur. rewrite length_reverse in Hcur.
    destruct df; [eexists; reflexivity | simpl in Hcur; lia].
Qed.

(** ** Scores *)

Lemma found_score (p : PatternName) (st : Stamp) (delta : Q) (acc : Acc) :
  (found p st delta acc).2 = acc.2 + delta.
Proof. reflexivity. Qed.

Lemma later_steps_score (prev2 prev : option Row) (cur : Row) (st : Stamp)
    (acc : Acc) :
  (later_steps prev2 prev cur st acc).2 == acc.2 + later_score prev2 prev cur.
Proof.
  unfold later_steps, later_score, evening_star_step, morning_star_step,
    bearish_engulfing_step, bullish_engulfing_step, shooting_star_step,
    hammer_step, adds.
  destruct (is_hammer cur), (is_shooting_star cur),
    (is_bullish_engulfing prev cur), (is_bearish_engulfing prev cur),
    (is_morning_star prev2 prev cur), (is_evening_star prev2 prev cur);
    rewrite ?found_score; ring.
Qed.

(** ** A series of one candle *)

(** C9: for a series of exactly one candle the analyzer returns signal HOLD;
    only Doji, Hammer and Shooting Star can be reported, and the score is
    -20, 0 or +20. *)
Theorem single_candle_hold (c : Row) :
  exists r, analyze_timeframe (Some [c]) = Ok r
    /\ signal r = HOLD
    /\ (score r = -20 \/ score r = 0 \/ score r = 20)
    /\ Forall (fun p => p.1 = Doji \/ p.1 = Hammer \/ p.1 = ShootingStar)
              (patterns r).
Proof.
  eexists. split.
  { apply (analyze_timeframe_window [c] c). reflexivity. }
  cbn [reverse rev_append lookup list_lookup].
  unfold detect, later_steps, evening_star_step, morning_star_step,
    bearish_engulfing_step, bullish_engulfing_step, shooting_star_step,
    hammer_step, doji_step, timeframe_result.
  cbn [is_bullish_engulfing is_bearish_engulfing is_morning_star
       is_evening_star signal score patterns].
  destruct (is_doji c), (is_hammer c), (is_shooting_star c);
    (split; [vm_compute; reflexivity|]);
    (split; [vm_compute; auto|]);
    cbn; repeat (apply Forall_cons_2; [cbn; auto|]); apply Forall_nil_2.
Qed.

(** ** Doji *)

Lemma window_of_two (pre : list Row) (prev cur : Row) :
  reverse (pre ++ [prev; cur]) !! 0%nat = Some cur
  /\ reverse (pre ++ [prev; cur]) !! 1%nat = Some prev
  /\ reverse (pre ++ [prev; cur]) !! 2%nat = last pre.
Proof.
  rewrite reverse_app. change (reverse [prev; cur]) with [cur; prev].
  split; [reflexivity|]. split; [reflexivity|].
  change (([cur; prev] ++ reverse pre) !! 2%nat) with (reverse pre !! 0%nat).
  rewrite <- head_lookup. apply head_reverse.
Qed.

(** C5: for every series of at least two candles whose last candle is a Doji,
    the Doji block adds exactly +2 to the running score when the preceding
    candle is bearish and exactly -2 when it is bullish; the score returned
    is that amount plus what the other detectors add. *)
Theorem doji_adjustment (pre : list Row) (prev cur : Row) :
  is_doji cur = true ->
  (forall st acc, Close prev < Open prev ->
     (doji_step (Some prev) cur st acc).2 = acc.2 + 2)
  /\ (forall st acc, Open prev < Close prev ->
     (doji_step (Some prev) cur st acc).2 = acc.2 - 2)
  /\ exists r, analyze_timeframe (Some (pre ++ [prev; cur])) = Ok r
     /\ (Close prev < Open prev ->
         score r == 2 + later_score (last pre) (Some prev) cur)
     /\ (Open prev < Close prev ->
         score r == -2 + later_score (last pre) (Some prev) cur).
Proof.
  intros Hdoji.
  assert (Hup : forall st acc, Close prev < Open prev ->
            (doji_step (Some prev) cur st acc).2 = acc.2 + 2).
  { intros st acc H. unfold doji_step. rewrite Hdoji.
    apply Qltb_true in H. rewrite H. reflexivity. }
  assert (Hdown : forall st acc, Open prev < Close prev ->
            (doji_step (Some prev) cur st acc).2 = acc.2 - 2).
  { intros st acc H. unfold doji_step. rewrite Hdoji.
    assert (Hn : Qltb (Close prev) (Open prev) = false)
      by (apply Qltb_false; lra).
    rewrite Hn. reflexivity. }
  split; [exact Hup|]. split; [exact Hdown|].
  destruct (window_of_two pre prev cur) as (H0 & H1 & H2).
  eexists. split; [apply (analyze_timeframe_window _ _ H0)|].
  rewrite H1, H2. cbn [score timeframe_result]. unfold detect.
  split; intros H; rewrite later_steps_score.
  - rewrite (Hup _ _ H). cbn [snd]. ring.
  - rewrite (Hdown _ _ H). cbn [snd]. ring.
Qed.

Lemma doji_adjustment_witness :
  is_doji doji_row = true
  /\ exists r, analyze_timeframe (Some [bearish_row; doji_row]) = Ok r
       /\ score r == 2.
Proof.
  split; [reflexivity|].
  destruct (doji_adjustment [] bearish_row doji_row eq_refl)
    as (_ & _ & r & Hr & Hbear & _).
  exists r. split; [exact Hr|].
  rewrite Hbear by (vm_compute; reflexivity). vm_compute. reflexivity.
Defined.

(** ** Hammer *)



(** ** Morning Star *)

(** What the detector tests: the direction of the first candle, the Doji
    test on the second, and the direction and the close of the third. *)
Lemma is_morning_star_iff (prev2 prev1 cur : Row) :
  is_morning_star (Some prev2) (Some prev1) cur = true <->
  Close prev2 < Open prev2
  /\ is_doji prev1 = true
  /\ Open cur < Close cur
  /\ (Open prev2 + Close prev2) / 2 < Close cur.
Proof.
  unfold is_morning_star.
  destruct (Qltb (Close prev2) (Open prev2)) eqn:H2,
    (is_doji prev1) eqn:H1, (Qltb (Open cur) (Close cur)) eqn:H0;
    cbn [negb]; rewrite ?Qltb_true; qprop;
    split; try discriminate; try tauto;
    intros (? & ? & ? & ?); try discriminate; lra.
Qed.

Lemma morning_star_step_score (prev2 prev : option Row) (cur : Row)
    (st : Stamp) (acc : Acc) :
  morning_star_step prev2 prev cur st acc =
  if is_morning_star prev2 prev cur
  then (acc.1 ++ [(MorningStar, st)], acc.2 + 35) else acc.
Proof. reflexivity. Qed.

(** C2, the code on a first candle that is itself a Doji: for the window
    (open 100.5, high 110, low 90, close 100), (open 100, high 101, low 99,
    close 100), (open 100, high 106, low 99.5, close 105) the first candle
    is bearish and satisfies the Doji predicate, so the condition of the
    specification does not hold; the detector fires all the same and the
    analyzer reports Morning Star with score 35. *)
Theorem morning_star_fires_on_bearish_doji :
  is_doji bearish_doji_row = true
  /\ ~ morning_star_as_specified bearish_doji_row doji_row bullish_row
  /\ is_morning_star (Some bearish_doji_row) (Some doji_row) bullish_row = true
  /\ exists r,
       analyze_timeframe (Some [bearish_doji_row; doji_row; bullish_row]) = Ok r
       /\ patterns r = [(MorningStar, AtIndex 2)]
       /\ score r = 35
       /\ signal r = BUY.
Proof.
  split; [reflexivity|]. split.
  { intros [[_ H] _]. vm_compute in H. discriminate. }
  split; [reflexivity|].
  eexists. split; [reflexivity|]. repeat split.
Qed.

(** ** Confidence *)

Lemma py_int_floor (q : Q) : 0 <= q -> py_int q = Qfloor q.
Proof.
  destruct q as [n d]. unfold Qle, py_int, Qfloor. cbn [Qnum Qden].
  intros H. apply Z.quot_div_nonneg; lia.
Qed.

Lemma clamp_bounds (x : Q) : 10 <= clamp x 10 95 <= 95.
Proof.
  unfold clamp.
  destruct (Q.min_spec 95 (Qmax 10 x)) as [[H1 H2]|[H1 H2]];
    destruct (Q.max_spec 10 x) as [[H3 H4]|[H3 H4]]; lra.
Qed.

Lemma agg_not_zero (st : AggState) :
  ~ weight_sum st == 0 ->
  py_div (total st) (weight_sum st) = Ok (total st / weight_sum st)
  /\ Qeq_bool (weight_sum st) 0 = false.
Proof.
  intros H%Qeq_bool_false. unfold py_div. rewrite H. split; reflexivity.
Qed.

(** C1, as stated, fails on the two-timeframe input of the specification:
    there the weight sum is 2.3, the average is -0.43/2.3, the clamped value
    is about 28.7, which rounds to 29, and the aggregator returns 28.  This
    is so in exact arithmetic and in binary64 arithmetic alike. *)
Lemma confidence_rounding_counterexample :
  (exists d a,
     aggregate_signals scenario_3 TF_WEIGHTS = Ok d
     /\ weight_sum (agg_loop TF_WEIGHTS scenario_3) == 2.3
     /\ avg d = Some a
     /\ round_half_even (clamp (Qabs a * 100 + 10) 10 95) = 29%Z
     /\ confidence d = 28%Z)
  /\ (exists d a,
       aggregate_signals_binary64 scenario_3 = Ok d
       /\ avg d = Some a
       /\ round_half_even
            (clamp (round_binary64 (round_binary64 (Qabs a * 100) + 10)) 10 95)
          = 29%Z
       /\ confidence d = 28%Z).
Proof.
  split.
  - do 2 eexists. split; [vm_compute; reflexivity|].
    split; [vm_compute; reflexivity|].
    split; [reflexivity|].
    split; vm_compute; reflexivity.
  - do 2 eexists. split; [vm_compute; reflexivity|].
    split; [reflexivity|].
    split; vm_compute; reflexivity.
Qed.

(** ** A single timeframe *)

(** The analyzer always stores the signal that its thresholds give to the
    score it stores. *)
Lemma analyze_timeframe_signal (df : option (list Row)) (r : TimeframeResult) :
  analyze_timeframe df = Ok r -> signal r = signal_of_score (score r).
Proof.
  destruct df as [df|]; [|intros [= <-]; reflexivity].
  destruct (reverse df !! 0%nat) as [cur|] eqn:Hcur.
  - rewrite (analyze_timeframe_window _ _ Hcur). intros [= <-]. reflexivity.
  - apply lookup_ge_None in Hcur. rewrite length_reverse in Hcur.
    destruct df; [intros [= <-]; reflexivity | simpl in Hcur; lia].
Qed.

Lemma mag_norm_of_eq (res : TimeframeResult) :
  mag_norm_of res == Qmin 100 (Qabs (score res)) * (1 # 100).
Proof.
  unfold mag_norm_of.
  assert (E : 100.0 == 100) by reflexivity.
  rewrite E. field.
Qed.


Lemma Qabs_spec (x : Q) :
  0 <= x /\ Qabs x == x \/ x <= 0 /\ Qabs x == - x.
Proof.
  destruct (Qlt_le_dec x 0) as [H|H].
  - right. split; [lra | apply Qabs_neg; lra].
  - left. split; [exact H | apply Qabs_pos; exact H].
Qed.




(** ** Labels without a weight *)






(** * Further properties of the analyzer and the aggregator *)

(** ** Candle geometry *)

Lemma body_nonneg (r : Row) : 0 <= body (candle_components r).
Proof. apply Qabs_nonneg. Qed.

Lemma range_positive (r : Row) : 0 < range (candle_components r).
Proof.
  cbn [candle_components range].
  destruct (Qltb (Low r) (High r)) eqn:H; qprop; [lra | reflexivity].
Qed.

Lemma range_cases (r : Row) :
  Low r < High r /\ range (candle_components r) = High r - Low r
  \/ High r <= Low r /\ range (candle_components r) = 1e-9.
Proof.
  cbn [candle_components range].
  destruct (Qltb (Low r) (High r)) eqn:H; qprop; [left | right]; auto.
Qed.

Lemma body_is_max_minus_min (r : Row) :
  body (candle_components r) == Qmax (Close r) (Open r) - Qmin (Close r) (Open r).
Proof.
  cbn [candle_components body].
  destruct (Qabs_spec (Close r - Open r)) as [[A1 A2]|[A1 A2]];
    destruct (Q.max_spec (Close r) (Open r)) as [[X1 X2]|[X1 X2]];
    destruct (Q.min_spec (Close r) (Open r)) as [[M1 M2]|[M1 M2]]; lra.
Qed.

(** X1: for every row, well formed or not, the body and the two shadows add
    up to high - low, and the range used as a divisor is positive (it is
    1e-9 when high <= low). *)
Theorem components_add_up (r : Row) :
  let comp := candle_components r in
  body comp + upper comp + lower comp == High r - Low r
  /\ 0 < range comp
  /\ (High r <= Low r -> range comp = 1e-9).
Proof.
  intros comp. split; [|split].
  - unfold comp. rewrite body_is_max_minus_min.
    cbn [candle_components upper lower]. ring.
  - apply range_positive.
  - intros H. unfold comp. cbn [candle_components range].
    apply Qltb_false in H. rewrite H. reflexivity.
Qed.

(** X2: for a well-formed row (high >= max(open, close) and low <=
    min(open, close)) the body and both shadows are not negative and the
    body is at most the range, so that body/range lies between 0 and 1. *)
Theorem components_well_formed (r : Row) :
  well_formed r ->
  let comp := candle_components r in
  0 <= upper comp /\ 0 <= lower comp
  /\ 0 <= body comp <= range comp
  /\ 0 <= body comp / range comp <= 1.
Proof.
  intros [Hh Hl] comp. subst comp.
  pose proof (body_is_max_minus_min r) as Hb.
  pose proof (body_nonneg r) as Hb0.
  pose proof (range_positive r) as Hr.
  assert (Hu : 0 <= upper (candle_components r))
    by (cbn [candle_components upper]; lra).
  assert (Hlo : 0 <= lower (candle_components r))
    by (cbn [candle_components lower]; lra).
  assert (Hbr : body (candle_components r) <= range (candle_components r)).
  { destruct (range_cases r) as [[H ->]|[H ->]]; [lra|].
    apply Qle_trans with 0; [lra | apply Qle_bool_iff; reflexivity]. }
  repeat split; try assumption.
  - apply Qle_shift_div_l; [exact Hr | lra].
  - apply Qle_shift_div_r; [exact Hr | lra].
Qed.

Lemma components_well_formed_witness :
  well_formed hammer_row
  /\ 0 <= body (candle_components hammer_row) / range (candle_components hammer_row) <= 1.
Proof.
  assert (H : well_formed hammer_row).
  { split; apply Qle_bool_iff; vm_compute; reflexivity. }
  split; [exact H|].
  apply (components_well_formed hammer_row H).
Defined.

(** ** Doji threshold *)

(** X3: the Doji test is monotone in its threshold: a row that passes with
    a threshold passes with every larger one. *)
Theorem is_doji_monotone (r : Row) (pct1 pct2 : Q) :
  pct1 <= pct2 ->
  is_doji_pct r pct1 = true ->
  is_doji_pct r pct2 = true.
Proof.
  unfold is_doji_pct. intros Hpct H. qprop. apply Qle_bool_iff.
  pose proof (range_positive r) as Hr.
  assert (pct1 * range (candle_components r) <= pct2 * range (candle_components r))
    by (apply Qmult_le_compat_r; lra).
  lra.
Qed.

Lemma is_doji_monotone_witness :
  0.1 <= 0.2
  /\ is_doji_pct doji_row 0.1 = true
  /\ is_doji_pct doji_row 0.2 = true.
Proof.
  assert (H1 : 0.1 <= 0.2) by (apply Qle_bool_iff; reflexivity).
  assert (H2 : is_doji_pct doji_row 0.1 = true) by reflexivity.
  split; [exact H1|]. split; [exact H2|].
  apply (is_doji_monotone doji_row 0.1 0.2 H1 H2).
Defined.

(** ** Opposite patterns *)

Lemma body_positive (r : Row) :
  Qeq_bool (body (candle_components r)) 0 = false ->
  0 < body (candle_components r).
Proof.
  intros H. qprop. pose proof (body_nonneg r) as Hb.
  destruct (Qlt_le_dec 0 (body (candle_components r))) as [Hlt|Hle];
    [exact Hlt | exfalso; apply H; lra].
Qed.

(** X4: no row is both a Hammer and a Shooting Star, so the +20 and the
    -20 never cancel. *)
Theorem hammer_shooting_star_exclusive (r : Row) :
  is_hammer r && is_shooting_star r = false.
Proof.
  unfold is_hammer, is_shooting_star, SHADOW_RATIO.
  destruct (Qeq_bool (body (candle_components r)) 0) eqn:Hz; [reflexivity|].
  apply body_positive in Hz.
  set (comp := candle_components r) in *.
  destruct (Qle_bool (2.0 * body comp) (lower comp)) eqn:H1;
    [|rewrite andb_false_r; reflexivity].
  destruct (Qle_bool (upper comp) (body comp * 1.0)) eqn:H2;
    [|rewrite andb_false_r; reflexivity].
  destruct (Qle_bool (2.0 * body comp) (upper comp)) eqn:H3;
    [|rewrite !andb_false_r; reflexivity].
  qprop. exfalso. lra.
Qed.

(** X5: no window is both a Morning Star and an Evening Star. *)
Theorem stars_exclusive (prev2 prev1 : option Row) (cur : Row) :
  is_morning_star prev2 prev1 cur && is_evening_star prev2 prev1 cur = false.
Proof.
  destruct prev2 as [p2|], prev1 as [p1|]; try reflexivity.
  unfold is_morning_star, is_evening_star.
  destruct (Qltb (Close p2) (Open p2)) eqn:Hbear; [|reflexivity].
  destruct (Qltb (Open p2) (Close p2)) eqn:Hbull.
  - qprop. lra.
  - cbn. apply andb_false_r.
Qed.

(** ** Mirror images *)

Lemma Qle_bool_ext (a a' b b' : Q) :
  a == a' -> b == b' -> Qle_bool a b = Qle_bool a' b'.
Proof. intros Ha Hb. rewrite Ha, Hb. reflexivity. Qed.

Lemma Qle_bool_opp (a b : Q) : Qle_bool (- a) (- b) = Qle_bool b a.
Proof.
  destruct (Qle_bool (- a) (- b)) eqn:H1, (Qle_bool b a) eqn:H2;
    qprop; try reflexivity; exfalso; lra.
Qed.

Lemma Qltb_opp (a b : Q) : Qltb (- a) (- b) = Qltb b a.
Proof. unfold Qltb. rewrite Qle_bool_opp. reflexivity. Qed.

Lemma Qltb_ext (a a' b b' : Q) :
  a == a' -> b == b' -> Qltb a b = Qltb a' b'.
Proof. intros Ha Hb. unfold Qltb. rewrite (Qle_bool_ext b b' a a'); auto. Qed.

Lemma Qmax_opp (a b : Q) : Qmax (- a) (- b) == - Qmin a b.
Proof.
  destruct (Q.max_spec (- a) (- b)) as [[H1 H2]|[H1 H2]];
    destruct (Q.min_spec a b) as [[H3 H4]|[H3 H4]]; lra.
Qed.

Lemma Qmin_opp (a b : Q) : Qmin (- a) (- b) == - Qmax a b.
Proof.
  destruct (Q.min_spec (- a) (- b)) as [[H1 H2]|[H1 H2]];
    destruct (Q.max_spec a b) as [[H3 H4]|[H3 H4]]; lra.
Qed.

Lemma mirror_body (r : Row) :
  body (candle_components (mirror r)) == body (candle_components r).
Proof.
  cbn [candle_components body mirror Open Close].
  rewrite <- (Qabs_opp (Close r - Open r)).
  apply Qabs_wd. ring.
Qed.

Lemma mirror_upper (r : Row) :
  upper (candle_components (mirror r)) == lower (candle_components r).
Proof.
  cbn [candle_components upper lower mirror Open Close High Low].
  rewrite Qmax_opp. ring.
Qed.

Lemma mirror_lower (r : Row) :
  lower (candle_components (mirror r)) == upper (candle_components r).
Proof.
  cbn [candle_components upper lower mirror Open Close High Low].
  rewrite Qmin_opp. ring.
Qed.

Lemma mirror_range (r : Row) :
  range (candle_components (mirror r)) == range (candle_components r).
Proof.
  cbn [candle_components range mirror High Low].
  rewrite Qltb_opp. destruct (Qltb (Low r) (High r)); [ring | reflexivity].
Qed.

Lemma mirror_is_doji (r : Row) : is_doji (mirror r) = is_doji r.
Proof.
  unfold is_doji, is_doji_pct. apply Qle_bool_ext.
  - apply mirror_body.
  - rewrite mirror_range. reflexivity.
Qed.

Lemma mirror_is_hammer (r : Row) : is_hammer (mirror r) = is_shooting_star r.
Proof.
  unfold is_hammer, is_shooting_star.
  rewrite (Qeq_bool_comm (body (candle_components (mirror r)))),
    (Qeq_bool_comm (body (candle_components r))).
  assert (Hz : Qeq_bool 0 (body (candle_components (mirror r)))
               = Qeq_bool 0 (body (candle_components r))).
  { apply Qeqb_comp; [reflexivity | apply mirror_body]. }
  rewrite Hz. destruct (Qeq_bool 0 (body (candle_components r))); [reflexivity|].
  f_equal; [f_equal|]; apply Qle_bool_ext;
    rewrite ?mirror_body, ?mirror_range, ?mirror_lower, ?mirror_upper;
    reflexivity.
Qed.

Lemma mirror_is_shooting_star (r : Row) :
  is_shooting_star (mirror r) = is_hammer r.
Proof.
  unfold is_hammer, is_shooting_star.
  rewrite (Qeq_bool_comm (body (candle_components (mirror r)))),
    (Qeq_bool_comm (body (candle_components r))).
  assert (Hz : Qeq_bool 0 (body (candle_components (mirror r)))
               = Qeq_bool 0 (body (candle_components r))).
  { apply Qeqb_comp; [reflexivity | apply mirror_body]. }
  rewrite Hz. destruct (Qeq_bool 0 (body (candle_components r))); [reflexivity|].
  f_equal; [f_equal|]; apply Qle_bool_ext;
    rewrite ?mirror_body, ?mirror_range, ?mirror_lower, ?mirror_upper;
    reflexivity.
Qed.

Lemma mirror_engulfing_test (p c : Row) :
  Qle_bool (Qmin (Open (mirror c)) (Close (mirror c)))
           (Qmin (Open (mirror p)) (Close (mirror p)))
  && Qle_bool (Qmax (Open (mirror p)) (Close (mirror p)))
              (Qmax (Open (mirror c)) (Close (mirror c)))
  = Qle_bool (Qmin (Open c) (Close c)) (Qmin (Open p) (Close p))
    && Qle_bool (Qmax (Open p) (Close p)) (Qmax (Open c) (Close c)).
Proof.
  cbn [mirror Open Close].
  rewrite (Qle_bool_ext _ _ _ _ (Qmin_opp (Open c) (Close c))
                                (Qmin_opp (Open p) (Close p))).
  rewrite (Qle_bool_ext _ _ _ _ (Qmax_opp (Open p) (Close p))
                                (Qmax_opp (Open c) (Close c))).
  rewrite !Qle_bool_opp. apply andb_comm.
Qed.

Lemma mirror_is_bearish_engulfing (prev : option Row) (cur : Row) :
  is_bearish_engulfing (mirror <$> prev) (mirror cur)
  = is_bullish_engulfing prev cur.
Proof.
  destruct prev as [p|]; [|reflexivity].
  cbn [fmap option_fmap option_map]. unfold is_bearish_engulfing, is_bullish_engulfing.
  rewrite mirror_engulfing_test. cbn [mirror Open Close].
  rewrite !Qltb_opp. reflexivity.
Qed.

Lemma mirror_is_bullish_engulfing (prev : option Row) (cur : Row) :
  is_bullish_engulfing (mirror <$> prev) (mirror cur)
  = is_bearish_engulfing prev cur.
Proof.
  destruct prev as [p|]; [|reflexivity].
  cbn [fmap option_fmap option_map]. unfold is_bearish_engulfing, is_bullish_engulfing.
  rewrite mirror_engulfing_test. cbn [mirror Open Close].
  rewrite !Qltb_opp. reflexivity.
Qed.

Lemma mirror_midpoint (p : Row) :
  (Open (mirror p) + Close (mirror p)) / 2 == - ((Open p + Close p) / 2).
Proof. cbn [mirror Open Close]. field. Qed.

Lemma mirror_is_evening_star (prev2 prev : option Row) (cur : Row) :
  is_evening_star (mirror <$> prev2) (mirror <$> prev) (mirror cur)
  = is_morning_star prev2 prev cur.
Proof.
  destruct prev2 as [p2|], prev as [p1|]; try reflexivity.
  cbn [fmap option_fmap option_map]. unfold is_evening_star, is_morning_star.
  rewrite mirror_is_doji.
  rewrite (Qltb_ext (Close (mirror cur)) (- Close cur)
             ((Open (mirror p2) + Close (mirror p2)) / 2)
             (- ((Open p2 + Close p2) / 2)))
    by (reflexivity || apply mirror_midpoint).
  cbn [mirror Open Close]. rewrite !Qltb_opp. reflexivity.
Qed.

Lemma mirror_is_morning_star (prev2 prev : option Row) (cur : Row) :
  is_morning_star (mirror <$> prev2) (mirror <$> prev) (mirror cur)
  = is_evening_star prev2 prev cur.
Proof.
  destruct prev2 as [p2|], prev as [p1|]; try reflexivity.
  cbn [fmap option_fmap option_map]. unfold is_evening_star, is_morning_star.
  rewrite mirror_is_doji.
  rewrite (Qltb_ext ((Open (mirror p2) + Close (mirror p2)) / 2)
             (- ((Open p2 + Close p2) / 2))
             (Close (mirror cur)) (- Close cur))
    by (reflexivity || apply mirror_midpoint).
  cbn [mirror Open Close]. rewrite !Qltb_opp. reflexivity.
Qed.

(** X6: reflecting the candles in the price axis (open and close negated,
    high and low negated and swapped) turns every bearish detector into its
    bullish twin and back, and leaves the Doji test unchanged. *)
Theorem mirror_detectors (prev2 prev : option Row) (cur : Row) :
  is_doji (mirror cur) = is_doji cur
  /\ is_shooting_star (mirror cur) = is_hammer cur
  /\ is_hammer (mirror cur) = is_shooting_star cur
  /\ is_bearish_engulfing (mirror <$> prev) (mirror cur)
     = is_bullish_engulfing prev cur
  /\ is_bullish_engulfing (mirror <$> prev) (mirror cur)
     = is_bearish_engulfing prev cur
  /\ is_evening_star (mirror <$> prev2) (mirror <$> prev) (mirror cur)
     = is_morning_star prev2 prev cur
  /\ is_morning_star (mirror <$> prev2) (mirror <$> prev) (mirror cur)
     = is_evening_star prev2 prev cur.
Proof.
  repeat split.
  - apply mirror_is_doji.
  - apply mirror_is_shooting_star.
  - apply mirror_is_hammer.
  - apply mirror_is_bearish_engulfing.
  - apply mirror_is_bullish_engulfing.
  - apply mirror_is_evening_star.
  - apply mirror_is_morning_star.
Qed.

(** ** The score as a sum *)

Lemma detect_score (prev2 prev : option Row) (cur : Row) (st : Stamp) :
  (detect prev2 prev cur st).2 == doji_score prev cur + later_score prev2 prev cur.
Proof.
  unfold detect. rewrite later_steps_score. unfold doji_step, doji_score.
  destruct (is_doji cur); [|reflexivity].
  destruct prev as [p|]; [|reflexivity].
  destruct (Qltb (Close p) (Open p)); cbn [fst snd]; ring.
Qed.

(** The analyzer on any frame: either there is no row, or the detectors run
    on the last rows. *)
Lemma analyze_timeframe_cases (df : list Row) :
  df = [] /\ analyze_timeframe (Some df) = Ok no_data
  \/ exists cur,
       reverse df !! 0%nat = Some cur
       /\ analyze_timeframe (Some df) =
          Ok (timeframe_result
                (detect (reverse df !! 2%nat) (reverse df !! 1%nat) cur
                        (stamp_of cur (last_index df)))
                cur).
Proof.
  destruct (reverse df !! 0%nat) as [cur|] eqn:Hcur.
  - right. exists cur. split; [reflexivity|].
    apply analyze_timeframe_window, Hcur.
  - left. apply lookup_ge_None in Hcur. rewrite length_reverse in Hcur.
    destruct df; [split; reflexivity | simpl in Hcur; lia].
Qed.

(** ** The mirrored series *)

Lemma mirror_later_score (prev2 prev : option Row) (cur : Row) :
  later_score (mirror <$> prev2) (mirror <$> prev) (mirror cur)
  == - later_score prev2 prev cur.
Proof.
  unfold later_score.
  rewrite mirror_is_hammer, mirror_is_shooting_star,
    mirror_is_bullish_engulfing, mirror_is_bearish_engulfing,
    mirror_is_morning_star, mirror_is_evening_star.
  unfold adds.
  destruct (is_hammer cur), (is_shooting_star cur),
    (is_bullish_engulfing prev cur), (is_bearish_engulfing prev cur),
    (is_morning_star prev2 prev cur), (is_evening_star prev2 prev cur);
    ring.
Qed.

Lemma mirror_doji_score (prev : option Row) (cur : Row) :
  (forall p, prev = Some p -> is_doji cur = true -> ~ Open p == Close p) ->
  doji_score (mirror <$> prev) (mirror cur) == - doji_score prev cur.
Proof.
  intros Hflat. unfold doji_score. rewrite mirror_is_doji.
  destruct (is_doji cur) eqn:Hd; [|reflexivity].
  destruct prev as [p|]; [|reflexivity].
  specialize (Hflat p eq_refl eq_refl).
  cbn [fmap option_fmap option_map mirror Open Close].
  rewrite Qltb_opp.
  destruct (Qltb (Close p) (Open p)) eqn:H1, (Qltb (Open p) (Close p)) eqn:H2;
    qprop; try reflexivity; exfalso; [lra | apply Hflat; lra].
Qed.

Lemma signal_of_score_opp (s s' : Q) :
  s' == - s -> signal_of_score s' = opposite (signal_of_score s).
Proof.
  intros H. unfold signal_of_score.
  destruct (Qle_bool 25 s') eqn:H1, (Qle_bool s' (-25)) eqn:H2,
    (Qle_bool 25 s) eqn:H3, (Qle_bool s (-25)) eqn:H4;
    qprop; try reflexivity; exfalso; lra.
Qed.

(** X7: when every candle of a series is reflected in the price axis the
    analyzer returns the negated score and the opposite signal, provided the
    Doji rule is not applied after a flat candle (open = close); after a flat
    candle the rule subtracts 2 in both orientations. *)
Theorem mirror_score (df : list Row) :
  (forall prev cur,
     reverse df !! 1%nat = Some prev -> reverse df !! 0%nat = Some cur ->
     is_doji cur = true -> ~ Open prev == Close prev) ->
  exists r r',
    analyze_timeframe (Some df) = Ok r
    /\ analyze_timeframe (Some (mirror <$> df)) = Ok r'
    /\ score r' == - score r
    /\ signal r' = opposite (signal r).
Proof.
  intros Hflat.
  destruct (analyze_timeframe_cases df) as [[-> H]|(cur & Hcur & H)].
  { exists no_data, no_data. repeat split; reflexivity. }
  assert (Hrev : forall k, reverse (mirror <$> df) !! k = mirror <$> reverse df !! k).
  { intros k. rewrite <- fmap_reverse. apply list_lookup_fmap. }
  assert (Hcur' : reverse (mirror <$> df) !! 0%nat = Some (mirror cur))
    by (rewrite Hrev, Hcur; reflexivity).
  do 2 eexists. split; [exact H|].
  split; [apply (analyze_timeframe_window _ _ Hcur')|].
  rewrite !Hrev. cbn [score signal timeframe_result].
  assert (Hs : (detect (mirror <$> reverse df !! 2%nat)
                       (mirror <$> reverse df !! 1%nat) (mirror cur)
                       (stamp_of (mirror cur) (last_index (mirror <$> df)))).2
               == - (detect (reverse df !! 2%nat) (reverse df !! 1%nat) cur
                            (stamp_of cur (last_index df))).2).
  { rewrite !detect_score, mirror_later_score, mirror_doji_score; [ring|].
    intros p Hp Hd. apply (Hflat p cur Hp Hcur Hd). }
  split; [exact Hs | apply signal_of_score_opp, Hs].
Qed.

Lemma mirror_score_witness :
  exists r r',
    analyze_timeframe (Some strongest_window) = Ok r
    /\ analyze_timeframe (Some (mirror <$> strongest_window)) = Ok r'
    /\ score r' == - score r
    /\ signal r = BUY /\ signal r' = SELL.
Proof.
  assert (Hflat : forall prev cur,
            reverse strongest_window !! 1%nat = Some prev ->
            reverse strongest_window !! 0%nat = Some cur ->
            is_doji cur = true -> ~ Open prev == Close prev).
  { intros prev cur [= <-] _ _. apply Qeq_bool_false. reflexivity. }
  destruct (mirror_score strongest_window Hflat) as (r & r' & Hr & Hr' & Hs & Hsig).
  exists r, r'. repeat split; try assumption.
  - vm_compute in Hr. injection Hr as <-. reflexivity.
  - vm_compute in Hr'. injection Hr' as <-. reflexivity.
Defined.

(** A flat candle followed by a Doji: the score is -2, and the score of the
    mirrored series is -2 as well. *)
Lemma mirror_score_after_flat :
  exists r r',
    analyze_timeframe (Some [doji_row; doji_row]) = Ok r
    /\ analyze_timeframe (Some (mirror <$> [doji_row; doji_row])) = Ok r'
    /\ score r = -2 /\ score r' = -2.
Proof. do 2 eexists. repeat split; vm_compute; reflexivity. Qed.

(** ** Bounds on the score *)

Lemma adds_integer (b : bool) (n : Z) :
  adds b (inject_Z n) == inject_Z (if b then n else 0).
Proof. destruct b; reflexivity. Qed.

Lemma doji_score_integer (prev : option Row) (cur : Row) :
  exists z, doji_score prev cur == inject_Z z /\ (-2 <= z <= 2)%Z.
Proof.
  unfold doji_score.
  destruct (is_doji cur); [|exists 0%Z; split; [reflexivity | lia]].
  destruct prev as [p|]; [|exists 0%Z; split; [reflexivity | lia]].
  destruct (Qltb (Close p) (Open p));
    [exists 2%Z | exists (-2)%Z]; (split; [reflexivity | lia]).
Qed.

Lemma later_score_integer (prev2 prev : option Row) (cur : Row) :
  exists z, later_score prev2 prev cur == inject_Z z /\ (-85 <= z <= 85)%Z.
Proof.
  unfold later_score.
  exists ((if is_hammer cur then 20 else 0)
          + (if is_shooting_star cur then -20 else 0)
          + (if is_bullish_engulfing prev cur then 30 else 0)
          + (if is_bearish_engulfing prev cur then -30 else 0)
          + (if is_morning_star prev2 prev cur then 35 else 0)
          + (if is_evening_star prev2 prev cur then -35 else 0))%Z.
  split.
  - rewrite !inject_Z_plus, <- !adds_integer. reflexivity.
  - destruct (is_hammer cur), (is_shooting_star cur),
      (is_bullish_engulfing prev cur), (is_bearish_engulfing prev cur),
      (is_morning_star prev2 prev cur), (is_evening_star prev2 prev cur); lia.
Qed.

Lemma detect_bounds (prev2 prev : option Row) (cur : Row) (st : Stamp) :
  let s := (detect prev2 prev cur st).2 in
  -87 <= s <= 87 /\ Qden (Qred s) = 1%positive.
Proof.
  intros s.
  destruct (doji_score_integer prev cur) as (zd & Hd & Hzd).
  destruct (later_score_integer prev2 prev cur) as (zl & Hl & Hzl).
  assert (Hs : s == inject_Z (zd + zl)).
  { unfold s. rewrite detect_score, Hd, Hl, inject_Z_plus. reflexivity. }
  split.
  - rewrite Hs. change (-87) with (inject_Z (-87)). change 87 with (inject_Z 87).
    rewrite <- !Zle_Qle. lia.
  - rewrite (Qred_complete _ _ Hs), inject_Z_Qred. reflexivity.
Qed.

(** X8: for every series the score is an integer between -87 and 87, so
    the explanation reads "score=<integer>.0" unless it is "no data"; the
    bound 87 is reached (Doji after a bearish candle, Hammer, Bullish
    Engulfing and Morning Star on the same window). *)
Theorem score_bounds :
  (forall df, exists r,
     analyze_timeframe df = Ok r
     /\ -87 <= score r <= 87
     /\ Qden (Qred (score r)) = 1%positive
     /\ (explain r = "no data"%string
         \/ explain r
            = ("score=" +:+ py_int_str (Qnum (Qred (score r))) +:+ ".0")%string))
  /\ (exists r, analyze_timeframe (Some strongest_window) = Ok r /\ score r = 87).
Proof.
  assert (Hnone : exists r, Ok no_data = Ok r
            /\ -87 <= score r <= 87
            /\ Qden (Qred (score r)) = 1%positive
            /\ (explain r = "no data"%string
                \/ explain r
                   = ("score=" +:+ py_int_str (Qnum (Qred (score r))) +:+ ".0")%string)).
  { exists no_data. split; [reflexivity|].
    split; [split; apply Qle_bool_iff; reflexivity|].
    split; [reflexivity | left; reflexivity]. }
  split.
  - intros [df|]; [|exact Hnone].
    destruct (analyze_timeframe_cases df) as [[-> H]|(cur & Hcur & H)];
      [exact Hnone|].
    eexists. split; [exact H|].
    destruct (detect_bounds (reverse df !! 2%nat) (reverse df !! 1%nat) cur
                (stamp_of cur (last_index df))) as [Hb Hd].
    cbn [score explain timeframe_result].
    split; [exact Hb|]. split; [exact Hd|]. right.
    unfold py_float_str. rewrite Hd. reflexivity.
  - eexists. split; [vm_compute; reflexivity | reflexivity].
Qed.

(** ** Reported patterns *)

Lemma step_reports (b : bool) (p : PatternName) (st : Stamp) (delta : Q)
    (acc : Acc) :
  b = true -> In p (if b then found p st delta acc else acc).1.*1.
Proof.
  intros ->. cbn [found fst]. rewrite fmap_app. apply in_or_app.
  right. left. reflexivity.
Qed.

Lemma step_keeps (b : bool) (p q : PatternName) (st : Stamp) (delta : Q)
    (acc : Acc) :
  In q acc.1.*1 -> In q (if b then found p st delta acc else acc).1.*1.
Proof.
  intros H. destruct b; [|exact H].
  cbn [found fst]. rewrite fmap_app. apply in_or_app. left. exact H.
Qed.

Lemma detect_reports_bullish (prev2 prev : option Row) (cur : Row) (st : Stamp) :
  (is_bullish_engulfing prev cur = true ->
   In BullishEngulfing (detect prev2 prev cur st).1.*1)
  /\ (is_morning_star prev2 prev cur = true ->
      In MorningStar (detect prev2 prev cur st).1.*1).
Proof.
  unfold detect, later_steps, evening_star_step, morning_star_step,
    bearish_engulfing_step, bullish_engulfing_step.
  split; intros H.
  - do 3 apply step_keeps. apply step_reports, H.
  - apply step_keeps. apply step_reports, H.
Qed.

Lemma detect_reports_bearish (prev2 prev : option Row) (cur : Row) (st : Stamp) :
  (is_bearish_engulfing prev cur = true ->
   In BearishEngulfing (detect prev2 prev cur st).1.*1)
  /\ (is_evening_star prev2 prev cur = true ->
      In EveningStar (detect prev2 prev cur st).1.*1).
Proof.
  unfold detect, later_steps, evening_star_step, morning_star_step,
    bearish_engulfing_step.
  split; intros H.
  - do 2 apply step_keeps. apply step_reports, H.
  - apply step_reports, H.
Qed.

Lemma weak_patterns_score (prev2 prev : option Row) (cur : Row) :
  (is_bullish_engulfing prev cur = false ->
   is_morning_star prev2 prev cur = false ->
   doji_score prev cur + later_score prev2 prev cur <= 22)
  /\ (is_bearish_engulfing prev cur = false ->
      is_evening_star prev2 prev cur = false ->
      -22 <= doji_score prev cur + later_score prev2 prev cur).
Proof.
  destruct (doji_score_integer prev cur) as (zd & Hd & Hzd).
  assert (Hd' : -2 <= doji_score prev cur <= 2).
  { rewrite Hd. change (-2) with (inject_Z (-2)). change 2 with (inject_Z 2).
    rewrite <- !Zle_Qle. lia. }
  unfold later_score, adds.
  split; intros -> ->;
    destruct (is_hammer cur), (is_shooting_star cur);
    repeat match goal with |- context [if ?b then _ else _] => destruct b end;
    lra.
Qed.

Lemma detect_needs_strong_pattern (prev2 prev : option Row) (cur : Row)
    (st : Stamp) :
  let acc := detect prev2 prev cur st in
  (signal_of_score acc.2 = BUY ->
   In BullishEngulfing acc.1.*1 \/ In MorningStar acc.1.*1)
  /\ (signal_of_score acc.2 = SELL ->
      In BearishEngulfing acc.1.*1 \/ In EveningStar acc.1.*1).
Proof.
  intros acc. subst acc.
  pose proof (detect_score prev2 prev cur st) as Hs.
  destruct (weak_patterns_score prev2 prev cur) as [Hup Hdown].
  destruct (detect_reports_bullish prev2 prev cur st) as [Hbe Hms].
  destruct (detect_reports_bearish prev2 prev cur st) as [Hbr Hes].
  unfold signal_of_score.
  split.
  - destruct (Qle_bool 25 (detect prev2 prev cur st).2) eqn:H25;
      [intros _
      |destruct (Qle_bool (detect prev2 prev cur st).2 (-25));
       intros Hc; discriminate Hc].
    destruct (is_bullish_engulfing prev cur); [left; auto|].
    destruct (is_morning_star prev2 prev cur); [right; auto|].
    exfalso. specialize (Hup eq_refl eq_refl). qprop. lra.
  - destruct (Qle_bool 25 (detect prev2 prev cur st).2) eqn:H25;
      [intros Hc; discriminate Hc|].
    destruct (Qle_bool (detect prev2 prev cur st).2 (-25)) eqn:Hm25;
      [intros _ | intros Hc; discriminate Hc].
    destruct (is_bearish_engulfing prev cur); [left; auto|].
    destruct (is_evening_star prev2 prev cur); [right; auto|].
    exfalso. specialize (Hdown eq_refl eq_refl). qprop. lra.
Qed.

(** X9: a BUY is only returned when Bullish Engulfing or Morning Star is
    among the reported patterns, a SELL only when Bearish Engulfing or
    Evening Star is: Doji, Hammer and Shooting Star alone never reach the
    thresholds. *)
Theorem strong_pattern_needed (df : option (list Row)) :
  exists r,
    analyze_timeframe df = Ok r
    /\ (signal r = BUY ->
        In BullishEngulfing (names r) \/ In MorningStar (names r))
    /\ (signal r = SELL ->
        In BearishEngulfing (names r) \/ In EveningStar (names r)).
Proof.
  assert (Hnone : exists r, Ok no_data = Ok r
            /\ (signal r = BUY ->
                In BullishEngulfing (names r) \/ In MorningStar (names r))
            /\ (signal r = SELL ->
                In BearishEngulfing (names r) \/ In EveningStar (names r))).
  { exists no_data. split; [reflexivity|]. split; discriminate. }
  destruct df as [df|]; [|exact Hnone].
  destruct (analyze_timeframe_cases df) as [[-> H]|(cur & Hcur & H)].
  { exact Hnone. }
  eexists. split; [exact H|].
  apply (detect_needs_strong_pattern (reverse df !! 2%nat) (reverse df !! 1%nat)
           cur (stamp_of cur (last_index df))).
Qed.

(** ** The rows that matter *)

Lemma step_stamp (b : bool) (p : PatternName) (st st' : Stamp) (delta : Q)
    (acc acc' : Acc) :
  acc.2 = acc'.2 /\ acc.1.*1 = acc'.1.*1 ->
  (if b then found p st delta acc else acc).2
  = (if b then found p st' delta acc' else acc').2
  /\ (if b then found p st delta acc else acc).1.*1
     = (if b then found p st' delta acc' else acc').1.*1.
Proof.
  intros [H2 H1]. destruct b; [|split; assumption].
  cbn [found fst snd]. rewrite !fmap_app, H1, H2. split; reflexivity.
Qed.

Lemma doji_step_stamp (prev : option Row) (cur : Row) (st st' : Stamp) :
  (doji_step prev cur st ([], 0)).2 = (doji_step prev cur st' ([], 0)).2
  /\ (doji_step prev cur st ([], 0)).1.*1 = (doji_step prev cur st' ([], 0)).1.*1.
Proof.
  unfold doji_step. destruct (is_doji cur); [|split; reflexivity].
  destruct prev as [p|]; [|split; reflexivity].
  destruct (Qltb (Close p) (Open p)); split; reflexivity.
Qed.

Lemma detect_stamp_irrelevant (prev2 prev : option Row) (cur : Row)
    (st st' : Stamp) :
  (detect prev2 prev cur st).2 = (detect prev2 prev cur st').2
  /\ (detect prev2 prev cur st).1.*1 = (detect prev2 prev cur st').1.*1.
Proof.
  unfold detect, later_steps, evening_star_step, morning_star_step,
    bearish_engulfing_step, bullish_engulfing_step, shooting_star_step,
    hammer_step.
  do 6 apply step_stamp. apply doji_step_stamp.
Qed.

Lemma window_of_three (pre : list Row) (a b c : Row) :
  reverse (pre ++ [a; b; c]) !! 0%nat = Some c
  /\ reverse (pre ++ [a; b; c]) !! 1%nat = Some b
  /\ reverse (pre ++ [a; b; c]) !! 2%nat = Some a.
Proof.
  rewrite reverse_app. change (reverse [a; b; c]) with [c; b; a].
  repeat split.
Qed.

(** X10: only the last three rows of a series are looked at: whatever
    precedes them, the score, the signal, the names of the patterns, the
    explanation and the two prices are the ones obtained from the last three
    rows alone; when the last row carries a date the whole result is the
    same (otherwise only the index stamped on the patterns differs). *)
Theorem only_last_three_rows (pre : list Row) (a b c : Row) :
  exists r r',
    analyze_timeframe (Some (pre ++ [a; b; c])) = Ok r
    /\ analyze_timeframe (Some [a; b; c]) = Ok r'
    /\ score r = score r' /\ signal r = signal r' /\ names r = names r'
    /\ explain r = explain r'
    /\ last_close r = last_close r' /\ last_open r = last_open r'
    /\ (Date c <> None -> r = r').
Proof.
  destruct (window_of_three pre a b c) as (H0 & H1 & H2).
  do 2 eexists.
  split; [apply (analyze_timeframe_window _ _ H0)|].
  split; [apply (analyze_timeframe_window [a; b; c] c); reflexivity|].
  rewrite H1, H2. change (reverse [a; b; c]) with [c; b; a].
  cbn [lookup list_lookup].
  set (st := stamp_of c (last_index (pre ++ [a; b; c]))).
  set (st' := stamp_of c (last_index [a; b; c])).
  destruct (detect_stamp_irrelevant (Some a) (Some b) c st st') as [Hs Hn].
  unfold names. cbn [score signal patterns explain last_close last_open
                     timeframe_result].
  rewrite Hs, Hn. repeat split.
  intros Hdate. subst st st'. unfold stamp_of.
  destruct (Date c); [reflexivity | contradiction].
Qed.

(** ** The aggregation loop *)

Lemma agg_loop_snoc (weights : gmap string Q)
    (tf_results : list (string * TimeframeResult))
    (item : string * TimeframeResult) :
  agg_loop weights (tf_results ++ [item])
  = agg_step weights (agg_loop weights tf_results) item.
Proof. apply foldl_snoc. Qed.

Lemma mag_norm_bounds (res : TimeframeResult) : 0 <= mag_norm_of res <= 1.
Proof.
  rewrite mag_norm_of_eq.
  destruct (Q.min_spec 100 (Qabs (score res))) as [[H1 H2]|[H1 H2]];
    pose proof (Qabs_nonneg (score res)); lra.
Qed.

Lemma contribution_bounds (weights : gmap string Q) (tf : string)
    (res : TimeframeResult) :
  0 <= weight_of weights tf ->
  - weight_of weights tf <= contribution_of weights tf res <= weight_of weights tf.
Proof.
  intros Hw. unfold contribution_of.
  destruct (mag_norm_bounds res) as [H0 H1].
  assert (Hm : 0 <= mag_norm_of res * weight_of weights tf)
    by (apply Qmult_le_0_compat; assumption).
  assert (Hm' : mag_norm_of res * weight_of weights tf <= 1 * weight_of weights tf)
    by (apply Qmult_le_compat_r; assumption).
  destruct (signal res); cbn [polarity_of]; lra.
Qed.

Lemma confidence_of_avg_floor (a : Q) :
  confidence_of_avg a = Qfloor (clamp (Qabs a * 100 + 10) 10 95).
Proof.
  unfold confidence_of_avg.
  change (Qmin 95 (Qmax 10 (Qabs a * 100 + 10)))
    with (clamp (Qabs a * 100 + 10) 10 95).
  apply py_int_floor. pose proof (clamp_bounds (Qabs a * 100 + 10)). lra.
Qed.

Lemma confidence_bands (a : Q) :
  (10 <= confidence_of_avg a <= 95)%Z
  /\ (final_of_avg a = HOLD -> (confidence_of_avg a <= 34)%Z)
  /\ (final_of_avg a <> HOLD -> (35 <= confidence_of_avg a)%Z).
Proof.
  rewrite confidence_of_avg_floor.
  set (x := Qabs a * 100 + 10).
  pose proof (clamp_bounds x) as [Hlo Hhi].
  assert (Hx : x < 35 -> clamp x 10 95 < 35).
  { unfold clamp. intros H.
    destruct (Q.min_spec 95 (Qmax 10 x)) as [[H1 H2]|[H1 H2]];
      destruct (Q.max_spec 10 x) as [[H3 H4]|[H3 H4]]; lra. }
  assert (Hx' : 35 <= x -> 35 <= clamp x 10 95).
  { unfold clamp. intros H.
    destruct (Q.min_spec 95 (Qmax 10 x)) as [[H1 H2]|[H1 H2]];
      destruct (Q.max_spec 10 x) as [[H3 H4]|[H3 H4]]; lra. }
  split; [|split].
  - split.
    + change 10%Z with (Qfloor 10). apply Qfloor_resp_le, Hlo.
    + change 95%Z with (Qfloor 95). apply Qfloor_resp_le, Hhi.
  - unfold final_of_avg.
    destruct (Qle_bool 0.25 a) eqn:H1; [discriminate|].
    destruct (Qle_bool a (-0.25)) eqn:H2; [discriminate|]. intros _. qprop.
    assert (H : x < 35).
    { unfold x. destruct (Qabs_spec a) as [[A1 A2]|[A1 A2]]; lra. }
    apply Hx in H. pose proof (Qfloor_le (clamp x 10 95)) as Hf.
    assert (Hlt : inject_Z (Qfloor (clamp x 10 95)) < inject_Z 35)
      by (change (inject_Z 35) with 35; lra).
    rewrite <- Zlt_Qlt in Hlt. lia.
  - unfold final_of_avg. intros Hne.
    assert (H : 35 <= x).
    { unfold x. destruct (Qabs_spec a) as [[A1 A2]|[A1 A2]];
        destruct (Qle_bool 0.25 a) eqn:H1;
        [| destruct (Qle_bool a (-0.25)) eqn:H2; [|contradiction]
         | | destruct (Qle_bool a (-0.25)) eqn:H2; [|contradiction]];
        qprop; lra. }
    change 35%Z with (Qfloor 35). apply Qfloor_resp_le, Hx', H.
Qed.

(** ** The average polarity *)

Lemma agg_loop_bounds (weights : gmap string Q)
    (tf_results : list (string * TimeframeResult)) :
  Forall (fun item => 0 <= weight_of weights item.1) tf_results ->
  let st := agg_loop weights tf_results in
  0 <= weight_sum st /\ - weight_sum st <= total st <= weight_sum st.
Proof.
  induction tf_results as [|item rest IH] using rev_ind; intros Hall st.
  - unfold st. cbn. lra.
  - apply Forall_app in Hall as [Hrest Hitem].
    apply Forall_inv in Hitem.
    specialize (IH Hrest). cbn zeta in IH. destruct IH as (Hw & Hlo & Hhi).
    unfold st. rewrite agg_loop_snoc.
    cbn [agg_step total weight_sum].
    destruct (contribution_bounds weights item.1 item.2 Hitem) as [Hc1 Hc2].
    lra.
Qed.

(** X12: when no timeframe of the input has a negative weight, the total
    never exceeds the weight sum in absolute value, so the avg that the
    aggregator returns lies between -1 and 1. *)
Theorem avg_within_unit
    (tf_results : list (string * TimeframeResult)) (weights : gmap string Q) :
  Forall (fun item => 0 <= weight_of weights item.1) tf_results ->
  forall d a,
    aggregate_signals tf_results weights = Ok d ->
    avg d = Some a ->
    -1 <= a <= 1.
Proof.
  intros Hall d a.
  destruct (agg_loop_bounds weights tf_results Hall) as (Hw & Hlo & Hhi).
  unfold aggregate_signals.
  destruct (Qeq_bool (weight_sum (agg_loop weights tf_results)) 0) eqn:Hz.
  - intros [= <-]. discriminate.
  - unfold py_div. rewrite Hz. cbn [bind]. intros [= <-] [= <-]. qprop.
    assert (Hpos : 0 < weight_sum (agg_loop weights tf_results)).
    { destruct (Qlt_le_dec 0 (weight_sum (agg_loop weights tf_results)));
        [assumption | exfalso; apply Hz; lra]. }
    split.
    + apply Qle_shift_div_l; [exact Hpos | lra].
    + apply Qle_shift_div_r; [exact Hpos | lra].
Qed.

Lemma default_weights_positive (tf : string) : 0 < weight_of TF_WEIGHTS tf.
Proof.
  unfold weight_of. destruct (TF_WEIGHTS !! tf) as [w|] eqn:Hw; [|reflexivity].
  apply elem_of_list_to_map_2 in Hw.
  repeat (apply elem_of_cons in Hw as [[= -> ->]|Hw]; [reflexivity|]).
  apply elem_of_nil in Hw. contradiction.
Qed.

Lemma avg_within_unit_witness :
  exists d a,
    aggregate_signals scenario_3 TF_WEIGHTS = Ok d
    /\ avg d = Some a
    /\ -1 <= a <= 1.
Proof.
  assert (Hall : Forall (fun item => 0 <= weight_of TF_WEIGHTS item.1) scenario_3).
  { apply Forall_forall. intros item _. apply Qlt_le_weak, default_weights_positive. }
  destruct (aggregate_signals scenario_3 TF_WEIGHTS) as [d|e] eqn:Hd;
    [|vm_compute in Hd; discriminate Hd].
  destruct (avg d) as [a|] eqn:Ha.
  - exists d, a. split; [reflexivity|]. split; [exact Ha|].
    apply (avg_within_unit scenario_3 TF_WEIGHTS Hall d a Hd Ha).
  - vm_compute in Hd. injection Hd as <-. discriminate Ha.
Defined.

(** ** Unanimous inputs *)

Lemma agg_loop_all_hold (weights : gmap string Q)
    (tf_results : list (string * TimeframeResult)) :
  Forall (fun item => signal item.2 = HOLD) tf_results ->
  total (agg_loop weights tf_results) == 0.
Proof.
  induction tf_results as [|item rest IH] using rev_ind; intros Hall.
  - reflexivity.
  - apply Forall_app in Hall as [Hrest Hitem]. apply Forall_inv in Hitem.
    rewrite agg_loop_snoc. cbn [agg_step total].
    rewrite (IH Hrest). unfold contribution_of. rewrite Hitem.
    cbn [polarity_of]. ring.
Qed.

Lemma aggregate_all_hold
    (tf_results : list (string * TimeframeResult)) (weights : gmap string Q) :
  Forall (fun item => signal item.2 = HOLD) tf_results ->
  exists d,
    aggregate_signals tf_results weights = Ok d
    /\ final_signal d = HOLD
    /\ confidence d = 10%Z
    /\ (forall a, avg d = Some a -> a == 0).
Proof.
  intros Hall. pose proof (agg_loop_all_hold weights tf_results Hall) as Htot.
  unfold aggregate_signals.
  destruct (Qeq_bool (weight_sum (agg_loop weights tf_results)) 0) eqn:Hz.
  - eexists. split; [reflexivity|]. repeat split. discriminate.
  - unfold py_div. rewrite Hz. cbn [bind]. qprop.
    set (a := total (agg_loop weights tf_results)
              / weight_sum (agg_loop weights tf_results)).
    assert (Ha : a == 0) by (unfold a; rewrite Htot; field; exact Hz).
    eexists. split; [reflexivity|].
    cbn [final_signal confidence avg].
    split; [|split].
    + unfold final_of_avg.
      destruct (Qle_bool 0.25 a) eqn:H1; [qprop; lra|].
      destruct (Qle_bool a (-0.25)) eqn:H2; [qprop; lra | reflexivity].
    + rewrite confidence_of_avg_floor.
      assert (Hx : clamp (Qabs a * 100 + 10) 10 95 == 10).
      { unfold clamp.
        destruct (Qabs_spec a) as [[A1 A2]|[A1 A2]];
          destruct (Q.min_spec 95 (Qmax 10 (Qabs a * 100 + 10))) as [[H1 H2]|[H1 H2]];
          destruct (Q.max_spec 10 (Qabs a * 100 + 10)) as [[H3 H4]|[H3 H4]]; lra. }
      rewrite (Qfloor_comp _ _ Hx). reflexivity.
    + intros a' [= <-]. exact Ha.
Qed.

(** X13: when every timeframe of the input says HOLD (for instance because
    no timeframe had data), the final signal is HOLD with confidence 10,
    whatever the scores and the weights are; the avg, when present, is
    zero. *)
Theorem all_hold_gives_hold
    (tf_results : list (string * TimeframeResult)) (weights : gmap string Q) :
  Forall (fun item => signal item.2 = HOLD) tf_results ->
  exists d,
    aggregate_signals tf_results weights = Ok d
    /\ final_signal d = HOLD
    /\ confidence d = 10%Z
    /\ (forall a, avg d = Some a -> a == 0).
Proof. apply aggregate_all_hold. Qed.

Lemma all_hold_gives_hold_witness :
  exists r1 r2 d,
    analyze_timeframe None = Ok r1
    /\ analyze_timeframe (Some [hammer_row]) = Ok r2
    /\ aggregate_signals [("M5"%string, r1); ("M15"%string, r2)] TF_WEIGHTS = Ok d
    /\ final_signal d = HOLD /\ confidence d = 10%Z.
Proof.
  exists no_data.
  destruct (analyze_timeframe (Some [hammer_row])) as [r2|e] eqn:H2;
    [|vm_compute in H2; discriminate H2].
  assert (Hsig : signal r2 = HOLD)
    by (vm_compute in H2; injection H2 as <-; reflexivity).
  assert (Hall : Forall (fun item : string * TimeframeResult => signal item.2 = HOLD)
                   [("M5"%string, no_data); ("M15"%string, r2)]).
  { repeat constructor. exact Hsig. }
  destruct (all_hold_gives_hold _ TF_WEIGHTS Hall) as (d & Hd & Hf & Hc & _).
  exists r2, d. repeat split; assumption.
Defined.

Lemma polarity_contribution (weights : gmap string Q) (tf : string)
    (res : TimeframeResult) :
  0 < weight_of weights tf ->
  signal res <> HOLD ->
  signal_of_score (score res) = signal res ->
  0.25 * weight_of weights tf
  <= polarity_of (signal res) * contribution_of weights tf res.
Proof.
  intros Hw Hne Hsig. unfold contribution_of. rewrite mag_norm_of_eq.
  set (m := Qmin 100 (Qabs (score res)) * (1 # 100)).
  assert (Hm : 0.25 <= m).
  { unfold m. unfold signal_of_score in Hsig.
    destruct (Q.min_spec 100 (Qabs (score res))) as [[H1 H2]|[H1 H2]]; [lra|].
    destruct (Qabs_spec (score res)) as [[A1 A2]|[A1 A2]];
      destruct (Qle_bool 25 (score res)) eqn:Hb;
      try destruct (Qle_bool (score res) (-25)) eqn:Hs;
      try (exfalso; apply Hne; symmetry; exact Hsig); qprop; lra. }
  assert (Hmw : 0.25 * weight_of weights tf <= m * weight_of weights tf)
    by (apply Qmult_le_compat_r; lra).
  destruct (signal res); cbn [polarity_of]; [lra | lra | contradiction].
Qed.

Lemma agg_loop_unanimous (weights : gmap string Q) (s : Signal)
    (tf_results : list (string * TimeframeResult)) :
  s <> HOLD ->
  Forall (fun item => signal item.2 = s
                      /\ signal_of_score (score item.2) = s
                      /\ 0 < weight_of weights item.1) tf_results ->
  let st := agg_loop weights tf_results in
  0 <= weight_sum st
  /\ (tf_results <> [] -> 0 < weight_sum st)
  /\ 0.25 * weight_sum st <= polarity_of s * total st.
Proof.
  intros Hne.
  induction tf_results as [|item rest IH] using rev_ind; intros Hall st.
  - unfold st. cbn. repeat split; try lra. congruence.
  - apply Forall_app in Hall as [Hrest Hitem]. apply Forall_inv in Hitem.
    destruct Hitem as (Hs & Hsc & Hw).
    specialize (IH Hrest). cbn zeta in IH. destruct IH as (H0 & _ & Hq).
    unfold st. rewrite agg_loop_snoc. cbn [agg_step total weight_sum].
    pose proof (polarity_contribution weights item.1 item.2 Hw) as Hc.
    rewrite Hs in Hc. specialize (Hc Hne Hsc).
    repeat split; try lra.
Qed.

(** X14: when every timeframe of a non-empty input carries the same BUY
    (or the same SELL), each with a score on the matching side of the +-25
    threshold and a positive weight, the final signal is that BUY (or
    SELL) and the confidence is at least 35. *)
Theorem unanimous_signal (s : Signal)
    (tf_results : list (string * TimeframeResult)) (weights : gmap string Q) :
  s <> HOLD ->
  tf_results <> [] ->
  Forall (fun item => signal item.2 = s
                      /\ signal_of_score (score item.2) = s
                      /\ 0 < weight_of weights item.1) tf_results ->
  exists d,
    aggregate_signals tf_results weights = Ok d
    /\ final_signal d = s
    /\ (35 <= confidence d)%Z.
Proof.
  intros Hne Hnil Hall.
  destruct (agg_loop_unanimous weights s tf_results Hne Hall) as (_ & Hpos & Hq).
  specialize (Hpos Hnil).
  unfold aggregate_signals.
  assert (Hz : Qeq_bool (weight_sum (agg_loop weights tf_results)) 0 = false)
    by (apply Qeq_bool_false; lra).
  unfold py_div. rewrite Hz. cbn [bind].
  set (t := total (agg_loop weights tf_results)) in *.
  set (w := weight_sum (agg_loop weights tf_results)) in *.
  assert (Hf : final_of_avg (t / w) = s).
  { unfold final_of_avg.
    destruct s; cbn [polarity_of] in Hq; [| |contradiction].
    - assert (H : 0.25 <= t / w) by (apply Qle_shift_div_l; lra).
      apply Qle_bool_iff in H. rewrite H. reflexivity.
    - assert (H : t / w <= -0.25) by (apply Qle_shift_div_r; lra).
      assert (H' : Qle_bool 0.25 (t / w) = false) by (apply Qle_bool_false; lra).
      apply Qle_bool_iff in H. rewrite H', H. reflexivity. }
  eexists. split; [reflexivity|]. cbn [final_signal confidence].
  split; [exact Hf|].
  apply (confidence_bands (t / w)). rewrite Hf. exact Hne.
Qed.

Lemma unanimous_signal_witness :
  exists r d,
    analyze_timeframe (Some strongest_window) = Ok r
    /\ aggregate_signals [("M5"%string, r); ("M15"%string, r)] TF_WEIGHTS = Ok d
    /\ final_signal d = BUY.
Proof.
  destruct (analyze_timeframe (Some strongest_window)) as [r|e] eqn:Hr;
    [|vm_compute in Hr; discriminate Hr].
  assert (Hsig : signal r = BUY /\ signal_of_score (score r) = BUY)
    by (vm_compute in Hr; injection Hr as <-; split; reflexivity).
  assert (Hall : Forall (fun item : string * TimeframeResult =>
                           signal item.2 = BUY
                           /\ signal_of_score (score item.2) = BUY
                           /\ 0 < weight_of TF_WEIGHTS item.1)
                   [("M5"%string, r); ("M15"%string, r)]).
  { repeat constructor; try apply Hsig; apply default_weights_positive. }
  assert (Hne : BUY <> HOLD) by (intros H; discriminate H).
  assert (Hnil : [("M5"%string, r); ("M15"%string, r)] <> [])
    by (intros H; discriminate H).
  destruct (unanimous_signal BUY _ TF_WEIGHTS Hne Hnil Hall) as (d & Hd & Hf & _).
  exists r, d. repeat split; assumption.
Defined.

(** ** The per-timeframe details *)

Lemma agg_loop_details (weights : gmap string Q)
    (tf_results : list (string * TimeframeResult)) (tf : string)
    (res : TimeframeResult) :
  NoDup tf_results.*1 ->
  (tf, res) ∈ tf_results ->
  acc_details (agg_loop weights tf_results) !! tf
  = Some {| pattern_signal := signal res; detail_score := score res;
            contribution := contribution_of weights tf res;
            detail_patterns := patterns res |}.
Proof.
  induction tf_results as [|item rest IH] using rev_ind; intros Hnd Hin.
  - apply elem_of_nil in Hin. contradiction.
  - rewrite agg_loop_snoc. cbn [agg_step acc_details].
    rewrite fmap_app in Hnd. apply NoDup_app in Hnd as (Hnd & Hdisj & _).
    apply elem_of_app in Hin as [Hin|Hin].
    + rewrite lookup_insert_ne.
      * apply IH; assumption.
      * intros Heq. apply (Hdisj tf).
        -- apply (list_elem_of_fmap_2 fst) in Hin. exact Hin.
        -- rewrite <- Heq. cbn. apply list_elem_of_singleton. reflexivity.
    + apply list_elem_of_singleton in Hin. subst item. cbn [fst snd].
      apply lookup_insert_eq.
Qed.

Lemma agg_loop_details_dom (weights : gmap string Q)
    (tf_results : list (string * TimeframeResult)) (tf : string) :
  is_Some (acc_details (agg_loop weights tf_results) !! tf) <-> tf ∈ tf_results.*1.
Proof.
  induction tf_results as [|item rest IH] using rev_ind.
  - cbn. rewrite lookup_empty. split; [intros [? [=]] | intros H%elem_of_nil; contradiction].
  - rewrite agg_loop_snoc, fmap_app, elem_of_app. cbn [agg_step acc_details].
    rewrite lookup_insert_is_Some, IH. cbn. rewrite list_elem_of_singleton.
    destruct (decide (item.1 = tf)); split; intros [H|H]; auto; tauto.
Qed.

(** X15: the details of the decision have an entry for exactly the
    timeframe labels of the input, and (the labels being distinct, as the
    keys of a dict are) the entry of a timeframe holds its signal, its score,
    its patterns and the contribution polarity * normalized magnitude *
    weight that entered the total. *)
Theorem details_of_input
    (tf_results : list (string * TimeframeResult)) (weights : gmap string Q) :
  NoDup tf_results.*1 ->
  exists d,
    aggregate_signals tf_results weights = Ok d
    /\ (forall tf, is_Some (details d !! tf) <-> tf ∈ tf_results.*1)
    /\ (forall tf res, (tf, res) ∈ tf_results ->
          details d !! tf
          = Some {| pattern_signal := signal res; detail_score := score res;
                    contribution := polarity_of (signal res) * mag_norm_of res
                                    * weight_of weights tf;
                    detail_patterns := patterns res |}).
Proof.
  intros Hnd.
  assert (Hd : exists d, aggregate_signals tf_results weights = Ok d
                 /\ details d = acc_details (agg_loop weights tf_results)).
  { unfold aggregate_signals, py_div.
    destruct (Qeq_bool (weight_sum (agg_loop weights tf_results)) 0);
      eexists; split; reflexivity. }
  destruct Hd as (d & Hd & Hdet). exists d. split; [exact Hd|].
  rewrite Hdet. split.
  - intros tf. apply agg_loop_details_dom.
  - intros tf res Hin. apply agg_loop_details; assumption.
Qed.

Lemma details_of_input_witness :
  NoDup scenario_3.*1
  /\ exists d dt,
       aggregate_signals scenario_3 TF_WEIGHTS = Ok d
       /\ details d !! "H4"%string = Some dt
       /\ contribution dt == -0.75.
Proof.
  assert (Hnd : NoDup scenario_3.*1).
  { cbn. apply NoDup_cons. split; [|apply NoDup_singleton].
    rewrite list_elem_of_singleton. discriminate. }
  split; [exact Hnd|].
  destruct (details_of_input scenario_3 TF_WEIGHTS Hnd) as (d & Hd & _ & Hl).
  exists d. eexists. split; [exact Hd|]. split.
  - apply (Hl "H4"%string). unfold scenario_3. do 2 constructor.
  - vm_compute. reflexivity.
Defined.

(** ** Fetching *)

Lemma omap_dropna_nil (history : list RawRow) :
  omap dropna_row history = [] <-> Forall (fun r => dropna_row r = None) history.
Proof.
  induction history as [|r rest IH]; cbn [omap list_omap].
  - split; [constructor | reflexivity].
  - destruct (dropna_row r) eqn:Hr.
    + split; [discriminate | intros H%Forall_inv; congruence].
    + rewrite IH. split; [intros H; constructor; assumption | apply Forall_inv_tail].
Qed.

Lemma analyze_timeframe_no_data_iff (df : option (list Row)) :
  analyze_timeframe df = Ok no_data <-> df = None \/ df = Some [].
Proof.
  split.
  - destruct df as [df|]; [|left; reflexivity].
    destruct (analyze_timeframe_cases df) as [[-> _]|(cur & _ & H)];
      [right; reflexivity|].
    rewrite H. intros [= Hp Hs Hsc He Hc Ho].
  - intros [-> | ->]; reflexivity.
Qed.

(** X16: the analyzer reports "no data" on what [fetch_ohlc] returns exactly
    when every row of the downloaded frame has a missing value in one of
    Open, High, Low, Close or Volume (in particular when the frame is
    empty); a row with a missing volume alone is dropped too. *)
Theorem fetch_no_data (history : list RawRow) :
  analyze_timeframe (fetch_ohlc history) = Ok no_data
  <-> Forall (fun r => raw_Open r = None \/ raw_High r = None \/ raw_Low r = None
                       \/ raw_Close r = None \/ raw_Volume r = None) history.
Proof.
  rewrite analyze_timeframe_no_data_iff.
  assert (Hrow : forall r, dropna_row r = None <->
                   raw_Open r = None \/ raw_High r = None \/ raw_Low r = None
                   \/ raw_Close r = None \/ raw_Volume r = None).
  { intros r. unfold dropna_row.
    destruct (raw_Open r), (raw_High r), (raw_Low r), (raw_Close r),
      (raw_Volume r); split; intros H; try reflexivity; try discriminate;
      try tauto; repeat (destruct H as [H|H]; try discriminate). }
  assert (Hall : Forall (fun r => dropna_row r = None) history <->
                 Forall (fun r => raw_Open r = None \/ raw_High r = None
                                  \/ raw_Low r = None \/ raw_Close r = None
                                  \/ raw_Volume r = None) history).
  { rewrite !Forall_forall. split; intros H r Hin; apply Hrow, H, Hin. }
  rewrite <- Hall, <- omap_dropna_nil.
  destruct history as [|r rest]; cbn [fetch_ohlc].
  - split; [reflexivity | left; reflexivity].
  - split; [intros [H|[= H]]; [discriminate | exact H]
           | intros H; right; rewrite H; reflexivity].
Qed.

(** ** The runner *)

Lemma run_timeframes_snoc (history : string -> TfConfig -> option (list RawRow))
    (symbol : string) (timeframes : list (string * TfConfig))
    (item : string * TfConfig) :
  run_timeframes history symbol (timeframes ++ [item])
  = do results <~ run_timeframes history symbol timeframes in
    do res <~ analyze_timeframe (fetched history symbol item.2) in
    Ok (results ++ [(item.1, res)]).
Proof. unfold run_timeframes. rewrite foldl_snoc. reflexivity. Qed.

Lemma run_timeframes_ok (history : string -> TfConfig -> option (list RawRow))
    (symbol : string) (timeframes : list (string * TfConfig)) :
  exists results,
    run_timeframes history symbol timeframes = Ok results
    /\ Forall2 (fun item res =>
                  res.1 = item.1
                  /\ analyze_timeframe (fetched history symbol item.2) = Ok res.2)
               timeframes results.
Proof.
  induction timeframes as [|item rest IH] using rev_ind.
  - exists []. split; [reflexivity | constructor].
  - destruct IH as (results & Hr & Hall).
    destruct (analyze_timeframe_total (fetched history symbol item.2)) as [res Hres].
    exists (results ++ [(item.1, res)]). split.
    + rewrite run_timeframes_snoc, Hr. cbn [bind]. rewrite Hres. reflexivity.
    + apply Forall2_app; [exact Hall|]. repeat constructor. exact Hres.
Qed.

Lemma aggregate_signals_ok (tf_results : list (string * TimeframeResult))
    (weights : gmap string Q) :
  exists d, aggregate_signals tf_results weights = Ok d.
Proof.
  unfold aggregate_signals, py_div.
  destruct (Qeq_bool (weight_sum (agg_loop weights tf_results)) 0);
    eexists; reflexivity.
Qed.

Lemma new_signal_lookup (agg : AggregateDecision)
    (existing : gmap string string) :
  (new_signal agg ∪ existing) !! "candle_Signal"%string
  = Some (signal_str (final_signal agg))
  /\ (new_signal agg ∪ existing) !! "candle_Confidence"%string
     = Some (py_int_str (confidence agg) +:+ "%")%string
  /\ (forall k, k <> "candle_Signal"%string -> k <> "candle_Confidence"%string ->
        (new_signal agg ∪ existing) !! k = existing !! k).
Proof.
  unfold new_signal. split; [|split].
  - apply lookup_union_Some_l, lookup_insert_eq.
  - apply lookup_union_Some_l.
    rewrite lookup_insert_ne by discriminate. apply lookup_insert_eq.
  - intros k H1 H2. apply lookup_union_r.
    rewrite !lookup_insert_ne by congruence. apply lookup_empty.
Qed.

Lemma run_ok (history : string -> TfConfig -> option (list RawRow))
    (existing : option (gmap string string))
    (symbol : string) (timeframes : list (string * TfConfig)) :
  exists out latest,
    run_candlestick_analysis history existing symbol timeframes = Ok (out, latest).
Proof.
  destruct (run_timeframes_ok history symbol timeframes) as (results & Hr & _).
  destruct (aggregate_signals_ok results TF_WEIGHTS) as [agg Hagg].
  unfold run_candlestick_analysis. rewrite Hr. cbn [bind]. rewrite Hagg.
  do 2 eexists. reflexivity.
Qed.

(** X17: the runner never raises, whatever the downloads return or fail
    with: it analyzes every configured timeframe once, in order, each on what
    was fetched for it, and aggregates these results with the default
    weights. *)
Theorem run_never_raises
    (history : string -> TfConfig -> option (list RawRow))
    (existing : option (gmap string string))
    (symbol : string) (timeframes : list (string * TfConfig)) :
  exists out latest,
    run_candlestick_analysis history existing symbol timeframes = Ok (out, latest)
    /\ out_symbol out = symbol
    /\ Forall2 (fun item res =>
                  res.1 = item.1
                  /\ analyze_timeframe (fetched history symbol item.2) = Ok res.2)
               timeframes (timeframe_results out)
    /\ aggregate_signals (timeframe_results out) TF_WEIGHTS = Ok (final out).
Proof.
  destruct (run_timeframes_ok history symbol timeframes) as (results & Hr & Hall).
  destruct (aggregate_signals_ok results TF_WEIGHTS) as [agg Hagg].
  unfold run_candlestick_analysis. rewrite Hr. cbn [bind]. rewrite Hagg. cbn [bind].
  do 2 eexists. split; [reflexivity|]. cbn [out_symbol timeframe_results final].
  repeat split; assumption.
Qed.

(** X18: after a run the latest-signal document holds the final signal
    under candle_Signal and the confidence followed by "%" under
    candle_Confidence, and every other key keeps the value it had (none when
    the document was missing or unreadable); the price pipeline, which reads
    the two fields with the default "N/A", therefore gets these two
    values. *)
Theorem run_updates_latest_signal
    (history : string -> TfConfig -> option (list RawRow))
    (existing : option (gmap string string))
    (symbol : string) (timeframes : list (string * TfConfig))
    (out : Output) (latest : gmap string string) :
  run_candlestick_analysis history existing symbol timeframes = Ok (out, latest) ->
  latest !! "candle_Signal"%string = Some (signal_str (final_signal (final out)))
  /\ latest !! "candle_Confidence"%string
     = Some (py_int_str (confidence (final out)) +:+ "%")%string
  /\ (forall k, k <> "candle_Signal"%string -> k <> "candle_Confidence"%string ->
        latest !! k = default ∅ existing !! k)
  /\ pipeline_candle_fields latest
     = (signal_str (final_signal (final out)),
        (py_int_str (confidence (final out)) +:+ "%")%string).
Proof.
  unfold run_candlestick_analysis.
  destruct (run_timeframes history symbol timeframes) as [results|e];
    [cbn [bind] | discriminate].
  destruct (aggregate_signals results TF_WEIGHTS) as [agg|e];
    [cbn [bind] | discriminate].
  intros [= <- <-]. cbn [final].
  destruct (new_signal_lookup agg (default ∅ existing)) as (H1 & H2 & H3).
  split; [exact H1|]. split; [exact H2|]. split; [exact H3|].
  unfold pipeline_candle_fields. rewrite H1, H2. reflexivity.
Qed.

Lemma run_updates_latest_signal_witness :
  exists out latest,
    run_candlestick_analysis (fun _ _ => None)
      (Some {["Signal"%string := "BUY"%string]}) SYMBOL TIMEFRAMES
    = Ok (out, latest)
    /\ latest !! "Signal"%string = Some "BUY"%string
    /\ pipeline_candle_fields latest
       = (signal_str (final_signal (final out)),
          (py_int_str (confidence (final out)) +:+ "%")%string).
Proof.
  destruct (run_ok (fun _ _ => None) (Some {["Signal"%string := "BUY"%string]})
              SYMBOL TIMEFRAMES) as (out & latest & Hrun).
  destruct (run_updates_latest_signal _ _ _ _ _ _ Hrun) as (_ & _ & Hk & Hp).
  exists out, latest. split; [exact Hrun|]. split; [|exact Hp].
  rewrite Hk by discriminate. apply lookup_singleton_eq.
Defined.

Lemma agg_loop_weight_positive (weights : gmap string Q)
    (tf_results : list (string * TimeframeResult)) :
  (forall tf, 0 < weight_of weights tf) ->
  tf_results <> [] ->
  0 < weight_sum (agg_loop weights tf_results).
Proof.
  intros Hw.
  assert (H0 : forall l, 0 <= weight_sum (agg_loop weights l)).
  { intros l. apply (agg_loop_bounds weights l).
    apply Forall_forall. intros item _. apply Qlt_le_weak, Hw. }
  destruct tf_results as [|item rest] using rev_ind; [congruence|]. intros _.
  rewrite agg_loop_snoc. cbn [agg_step weight_sum].
  specialize (H0 rest). specialize (Hw item.1). lra.
Qed.

(** X19: when every configured timeframe ends without data (the download
    fails, returns nothing, or returns only rows with a missing value), the
    run decides HOLD with confidence 10 and writes "HOLD" and "10%" to the
    latest-signal document. *)
Theorem run_without_data
    (history : string -> TfConfig -> option (list RawRow))
    (existing : option (gmap string string))
    (symbol : string) (timeframes : list (string * TfConfig)) :
  Forall (fun item => fetched history symbol item.2 = None
                      \/ fetched history symbol item.2 = Some []) timeframes ->
  exists out latest,
    run_candlestick_analysis history existing symbol timeframes = Ok (out, latest)
    /\ final_signal (final out) = HOLD
    /\ confidence (final out) = 10%Z
    /\ pipeline_candle_fields latest = ("HOLD"%string, "10%"%string).
Proof.
  intros Hnone.
  destruct (run_timeframes_ok history symbol timeframes) as (results & Hr & Hall).
  assert (Hhold : Forall (fun item : string * TimeframeResult =>
                            signal item.2 = HOLD) results).
  { clear Hr. induction Hall as [|item res tfs rs [_ Hres] _ IH];
      [constructor|].
    apply Forall_cons in Hnone as [Hitem Hrest].
    constructor; [|apply IH, Hrest].
    apply analyze_timeframe_no_data_iff in Hitem.
    rewrite Hitem in Hres. injection Hres as <-. reflexivity. }
  destruct (aggregate_all_hold results TF_WEIGHTS Hhold) as (agg & Hagg & Hf & Hc & _).
  unfold run_candlestick_analysis. rewrite Hr. cbn [bind]. rewrite Hagg. cbn [bind].
  do 2 eexists. split; [reflexivity|]. cbn [final].
  split; [exact Hf|]. split; [exact Hc|].
  destruct (new_signal_lookup agg (default ∅ existing)) as (H1 & H2 & _).
  unfold pipeline_candle_fields. rewrite H1, H2, Hf, Hc. reflexivity.
Qed.

Lemma run_without_data_witness :
  exists out latest,
    run_candlestick_analysis (fun _ _ => Some []) None SYMBOL TIMEFRAMES
    = Ok (out, latest)
    /\ pipeline_candle_fields latest = ("HOLD"%string, "10%"%string).
Proof.
  assert (Hnone : Forall (fun item : string * TfConfig =>
                            fetched (fun _ _ => Some []) SYMBOL item.2 = None
                            \/ fetched (fun _ _ => Some []) SYMBOL item.2 = Some [])
                    TIMEFRAMES).
  { repeat constructor. }
  destruct (run_without_data (fun _ _ => Some []) None SYMBOL TIMEFRAMES Hnone)
    as (out & latest & Hrun & _ & _ & Hp).
  exists out, latest. split; assumption.
Defined.

(** X20: with the shipped weight table every timeframe has a positive
    weight (1.0 when it is not in the table), so a run over at least one
    timeframe always divides by a positive weight sum: the decision carries
    an avg, and it lies between -1 and 1. *)
Theorem run_avg_present
    (history : string -> TfConfig -> option (list RawRow))
    (existing : option (gmap string string))
    (symbol : string) (timeframes : list (string * TfConfig)) :
  timeframes <> [] ->
  exists out latest a,
    run_candlestick_analysis history existing symbol timeframes = Ok (out, latest)
    /\ avg (final out) = Some a
    /\ -1 <= a <= 1.
Proof.
  intros Hnil.
  destruct (run_timeframes_ok history symbol timeframes) as (results & Hr & Hall).
  assert (Hres : results <> []).
  { intros ->. apply Forall2_nil_inv_r in Hall. contradiction. }
  pose proof (agg_loop_weight_positive TF_WEIGHTS results
                default_weights_positive Hres) as Hpos.
  destruct (agg_loop_bounds TF_WEIGHTS results) as (_ & Hlo & Hhi).
  { apply Forall_forall. intros item _. apply Qlt_le_weak, default_weights_positive. }
  assert (Hz : ~ weight_sum (agg_loop TF_WEIGHTS results) == 0) by lra.
  destruct (agg_not_zero _ Hz) as [Hdiv Hq].
  unfold run_candlestick_analysis. rewrite Hr. cbn [bind].
  unfold aggregate_signals. rewrite Hq, Hdiv. cbn [bind].
  do 3 eexists. split; [reflexivity|]. cbn [final avg]. split; [reflexivity|].
  split.
  - apply Qle_shift_div_l; [exact Hpos | lra].
  - apply Qle_shift_div_r; [exact Hpos | lra].
Qed.

Lemma run_avg_present_witness :
  TIMEFRAMES <> []
  /\ exists out latest a,
       run_candlestick_analysis (fun _ _ => None) None SYMBOL TIMEFRAMES
       = Ok (out, latest)
       /\ avg (final out) = Some a
       /\ -1 <= a <= 1.
Proof.
  assert (Hnil : TIMEFRAMES <> []) by (intros H; discriminate H).
  split; [exact Hnil|].
  apply (run_avg_present (fun _ _ => None) None SYMBOL TIMEFRAMES Hnil).
Defined.

(** ** Engulfing in terms of the four prices *)

(** X21: Bullish Engulfing fires exactly when the previous candle falls,
    the current one rises, and the current body reaches from at or below
    the previous close to at or above the previous open; Bearish Engulfing
    is the same with the directions exchanged.  In both cases the current
    body is at least as long as the previous one. *)
Theorem engulfing_prices (p c : Row) :
  (is_bullish_engulfing (Some p) c = true <->
     Close p < Open p /\ Open c < Close c
     /\ Open c <= Close p /\ Open p <= Close c)
  /\ (is_bearish_engulfing (Some p) c = true <->
        Open p < Close p /\ Close c < Open c
        /\ Close c <= Open p /\ Close p <= Open c)
  /\ (is_bullish_engulfing (Some p) c || is_bearish_engulfing (Some p) c = true ->
      body (candle_components p) <= body (candle_components c)).
Proof.
  assert (Hbull : is_bullish_engulfing (Some p) c = true <->
            Close p < Open p /\ Open c < Close c
            /\ Open c <= Close p /\ Open p <= Close c).
  { unfold is_bullish_engulfing.
    destruct (Qltb (Close p) (Open p)) eqn:H1, (Qltb (Open c) (Close c)) eqn:H2;
      cbn [andb negb]; qprop;
      try (split; [discriminate | intros (? & ? & ? & ?); lra]).
    rewrite andb_true_iff, !Qle_bool_iff.
    destruct (Q.min_spec (Open p) (Close p)) as [[? ?]|[? ?]];
      destruct (Q.max_spec (Open p) (Close p)) as [[? ?]|[? ?]];
      destruct (Q.min_spec (Open c) (Close c)) as [[? ?]|[? ?]];
      destruct (Q.max_spec (Open c) (Close c)) as [[? ?]|[? ?]];
      split; intros; repeat split; try lra. }
  assert (Hbear : is_bearish_engulfing (Some p) c = true <->
            Open p < Close p /\ Close c < Open c
            /\ Close c <= Open p /\ Close p <= Open c).
  { unfold is_bearish_engulfing.
    destruct (Qltb (Open p) (Close p)) eqn:H1, (Qltb (Close c) (Open c)) eqn:H2;
      cbn [andb negb]; qprop;
      try (split; [discriminate | intros (? & ? & ? & ?); lra]).
    rewrite andb_true_iff, !Qle_bool_iff.
    destruct (Q.min_spec (Open p) (Close p)) as [[? ?]|[? ?]];
      destruct (Q.max_spec (Open p) (Close p)) as [[? ?]|[? ?]];
      destruct (Q.min_spec (Open c) (Close c)) as [[? ?]|[? ?]];
      destruct (Q.max_spec (Open c) (Close c)) as [[? ?]|[? ?]];
      split; intros; repeat split; try lra. }
  split; [exact Hbull|]. split; [exact Hbear|].
  intros H. apply orb_true_iff in H.
  cbn [candle_components body].
  destruct (Qabs_spec (Close p - Open p)) as [[? ?]|[? ?]];
    destruct (Qabs_spec (Close c - Open c)) as [[? ?]|[? ?]];
    destruct H as [H|H]; [apply Hbull in H | apply Hbear in H
                         | apply Hbull in H | apply Hbear in H
                         | apply Hbull in H | apply Hbear in H
                         | apply Hbull in H | apply Hbear in H];
    destruct H as (? & ? & ? & ?); lra.
Qed.

(** ** The reported patterns and the score *)

Lemma step_names (b : bool) (p : PatternName) (st : Stamp) (delta : Q)
    (acc : Acc) :
  (if b then found p st delta acc else acc).1.*1
  = acc.1.*1 ++ (if b then [p] else []).
Proof.
  destruct b; [|symmetry; apply app_nil_r].
  cbn [found fst]. rewrite fmap_app. reflexivity.
Qed.

Lemma doji_step_names (prev : option Row) (cur : Row) (st : Stamp) (acc : Acc) :
  (doji_step prev cur st acc).1.*1
  = acc.1.*1 ++ (if is_doji cur then [Doji] else []).
Proof.
  unfold doji_step. destruct (is_doji cur); [|symmetry; apply app_nil_r].
  destruct prev as [p|]; [destruct (Qltb (Close p) (Open p))|];
    cbn [fst]; rewrite fmap_app; reflexivity.
Qed.

Lemma step_stamps (b : bool) (p : PatternName) (st : Stamp) (delta : Q)
    (acc : Acc) :
  Forall (fun x => x.2 = st) acc.1 ->
  Forall (fun x => x.2 = st) (if b then found p st delta acc else acc).1.
Proof.
  intros H. destruct b; [|exact H].
  cbn [found fst]. apply Forall_app. split; [exact H|].
  apply Forall_singleton. reflexivity.
Qed.

Lemma doji_step_stamps (prev : option Row) (cur : Row) (st : Stamp) (acc : Acc) :
  Forall (fun x => x.2 = st) acc.1 ->
  Forall (fun x => x.2 = st) (doji_step prev cur st acc).1.
Proof.
  intros H. unfold doji_step. destruct (is_doji cur); [|exact H].
  destruct prev as [p|]; [destruct (Qltb (Close p) (Open p))|];
    cbn [fst]; (apply Forall_app; split; [exact H|]);
    apply Forall_singleton; reflexivity.
Qed.

Lemma detect_names (prev2 prev : option Row) (cur : Row) (st : Stamp) :
  (detect prev2 prev cur st).1.*1 = firing prev2 prev cur.
Proof.
  unfold detect, later_steps, evening_star_step, morning_star_step,
    bearish_engulfing_step, bullish_engulfing_step, shooting_star_step,
    hammer_step, firing.
  rewrite !step_names, doji_step_names. cbn [fst fmap list_fmap app].
  rewrite <- !app_assoc. reflexivity.
Qed.

Lemma sum_points_app (l k : list PatternName) :
  sum_points (l ++ k) == sum_points l + sum_points k.
Proof.
  induction l as [|p l IH].
  - change (sum_points ([] ++ k)) with (sum_points k).
    change (sum_points []) with 0. ring.
  - change (sum_points ((p :: l) ++ k)) with (points p + sum_points (l ++ k)).
    change (sum_points (p :: l)) with (points p + sum_points l).
    rewrite IH. ring.
Qed.

Lemma sum_points_flag (b : bool) (p : PatternName) :
  sum_points (if b then [p] else []) == adds b (points p).
Proof. destruct b; cbn; ring. Qed.

Lemma sum_points_firing (prev2 prev : option Row) (cur : Row) :
  sum_points (firing prev2 prev cur) == later_score prev2 prev cur.
Proof.
  unfold firing, later_score.
  rewrite !sum_points_app, !sum_points_flag. cbn [points].
  destruct (is_doji cur); cbn [adds]; ring.
Qed.

(** X22: on a non-empty series the analyzer reports exactly the patterns
    whose detectors fire on the last rows, once each and in the fixed order
    Doji, Hammer, Shooting Star, Bullish Engulfing, Bearish Engulfing,
    Morning Star, Evening Star, all with the same stamp; the score is the
    sum of their points (20, -20, 30, -30, 35, -35) plus what the Doji rule
    adds. *)
Theorem patterns_explain_score (df : list Row) (cur : Row) :
  reverse df !! 0%nat = Some cur ->
  exists r,
    analyze_timeframe (Some df) = Ok r
    /\ names r = firing (reverse df !! 2%nat) (reverse df !! 1%nat) cur
    /\ Forall (fun p => p.2 = stamp_of cur (last_index df)) (patterns r)
    /\ score r == doji_score (reverse df !! 1%nat) cur + sum_points (names r).
Proof.
  intros Hcur. eexists. split; [apply (analyze_timeframe_window _ _ Hcur)|].
  unfold names. cbn [patterns score timeframe_result].
  set (st := stamp_of cur (last_index df)).
  split; [apply detect_names|]. split.
  - unfold detect, later_steps, evening_star_step, morning_star_step,
      bearish_engulfing_step, bullish_engulfing_step, shooting_star_step,
      hammer_step.
    do 6 apply step_stamps. apply doji_step_stamps. apply Forall_nil_2.
  - rewrite detect_names, sum_points_firing. apply detect_score.
Qed.

Lemma patterns_explain_score_witness :
  exists r,
    analyze_timeframe (Some strongest_window) = Ok r
    /\ names r = [Doji; Hammer; BullishEngulfing; MorningStar]
    /\ score r == 2 + sum_points (names r).
Proof.
  destruct (patterns_explain_score strongest_window
              (mkRow None 100 108 40 106) eq_refl) as (r & Hr & Hn & _ & Hs).
  exists r. split; [exact Hr|]. split; [rewrite Hn; reflexivity|].
  rewrite Hs. apply Qplus_comp; reflexivity.
Defined.

(** * The aggregator in binary64 arithmetic *)

(** ** Rounding to the nearest integer *)

Lemma round_half_even_bounds (x : Q) :
  (Qfloor x <= round_half_even x <= Qfloor x + 1)%Z.
Proof.
  unfold round_half_even.
  destruct (Qcompare (x - inject_Z (Qfloor x)) 0.5);
    [destruct (Z.even (Qfloor x))| |]; lia.
Qed.

Lemma round_half_even_comp (x y : Q) :
  x == y -> round_half_even x = round_half_even y.
Proof.
  intros H. unfold round_half_even.
  rewrite (Qfloor_comp _ _ H).
  assert (Hc : Qcompare (x - inject_Z (Qfloor y)) 0.5
               = Qcompare (y - inject_Z (Qfloor y)) 0.5)
    by (apply Qcompare_comp; [rewrite H; reflexivity | reflexivity]).
  rewrite Hc. reflexivity.
Qed.

Lemma round_half_even_Z (n : Z) : round_half_even (inject_Z n) = n.
Proof.
  unfold round_half_even. rewrite Qfloor_Z.
  assert (H0 : inject_Z n - inject_Z n == 0) by ring.
  assert (H : Qcompare (inject_Z n - inject_Z n) 0.5 = Qcompare 0 0.5)
    by (apply Qcompare_comp; [exact H0 | reflexivity]).
  rewrite H. reflexivity.
Qed.

Lemma round_half_even_mono (x y : Q) :
  x <= y -> (round_half_even x <= round_half_even y)%Z.
Proof.
  intros Hxy.
  pose proof (Qfloor_resp_le _ _ Hxy) as Hf.
  pose proof (round_half_even_bounds x) as Hx.
  pose proof (round_half_even_bounds y) as Hy.
  destruct (Z.eq_dec (Qfloor x) (Qfloor y)) as [Heq|Hne]; [|lia].
  unfold round_half_even. rewrite Heq.
  destruct (Qcompare_spec (x - inject_Z (Qfloor y)) 0.5) as [H1|H1|H1];
    destruct (Qcompare_spec (y - inject_Z (Qfloor y)) 0.5) as [H2|H2|H2];
    try destruct (Z.even (Qfloor y)); try lia; exfalso; lra.
Qed.

(** ** Rounding to a grid *)

Lemma pow2_pos (e : Z) : 0 < 2 ^ e.
Proof. apply Qpower_0_lt. reflexivity. Qed.

Lemma pow2_split (e e' : Z) : 2 ^ e' == 2 ^ (e' - e) * 2 ^ e.
Proof.
  rewrite <- Qpower_plus by (intros H; discriminate H).
  replace (e' - e + e)%Z with e' by lia. reflexivity.
Qed.

Lemma round_at_mono (e : Z) (x y : Q) :
  x <= y -> round_at e x <= round_at e y.
Proof.
  intros H. unfold round_at. pose proof (pow2_pos e) as Hp.
  apply Qmult_le_compat_r; [|lra].
  rewrite <- Zle_Qle. apply round_half_even_mono.
  apply Qmult_le_compat_r; [exact H|].
  apply Qlt_le_weak, Qinv_lt_0_compat, Hp.
Qed.

(** A multiple of a coarser power of two is left alone. *)
Lemma round_at_grid (e e' : Z) (n : Z) :
  (e <= e')%Z -> round_at e (inject_Z n * 2 ^ e') == inject_Z n * 2 ^ e'.
Proof.
  intros He. unfold round_at. pose proof (pow2_pos e) as Hp.
  assert (Hq : inject_Z n * 2 ^ e' / 2 ^ e == inject_Z (n * 2 ^ (e' - e))).
  { rewrite inject_Z_mult, Zpower_Qpower by lia.
    rewrite (pow2_split e e'). change (inject_Z 2) with 2. field. lra. }
  rewrite (round_half_even_comp _ _ Hq), round_half_even_Z.
  rewrite inject_Z_mult, Zpower_Qpower by lia.
  rewrite (pow2_split e e'). change (inject_Z 2) with 2. ring.
Qed.

Lemma round_at_below (e e' : Z) (n : Z) (x : Q) :
  (e <= e')%Z -> x <= inject_Z n * 2 ^ e' -> round_at e x <= inject_Z n * 2 ^ e'.
Proof.
  intros He Hx. rewrite <- (round_at_grid e e' n He).
  apply round_at_mono, Hx.
Qed.

Lemma round_at_above (e e' : Z) (n : Z) (x : Q) :
  (e <= e')%Z -> inject_Z n * 2 ^ e' <= x -> inject_Z n * 2 ^ e' <= round_at e x.
Proof.
  intros He Hx. rewrite <- (round_at_grid e e' n He).
  apply round_at_mono, Hx.
Qed.

(** ** The binade of a rational *)

Lemma frac_le (n d p1 p2 : Q) :
  0 <= p1 -> p1 <= n -> 0 < d -> d <= p2 -> p1 / p2 <= n / d.
Proof.
  intros H1 H2 H3 H4.
  apply Qle_shift_div_l; [exact H3|].
  assert (E : p1 / p2 * d == p1 * d / p2) by (field; lra). rewrite E.
  apply Qle_shift_div_r; [lra|].
  apply Qle_trans with (n * d).
  - apply Qmult_le_compat_r; lra.
  - rewrite (Qmult_comm n d), (Qmult_comm n p2).
    apply Qmult_le_compat_r; lra.
Qed.

Lemma frac_lt (n d p1 p2 : Q) :
  0 < p1 -> n < p1 -> 0 < p2 -> p2 <= d -> n / d < p1 / p2.
Proof.
  intros H1 H2 H3 H4.
  apply Qlt_shift_div_r; [lra|].
  assert (E : p1 / p2 * d == p1 * d / p2) by (field; lra). rewrite E.
  apply Qlt_shift_div_l; [exact H3|].
  apply Qlt_le_trans with (p1 * p2).
  - apply Qmult_lt_compat_r; lra.
  - rewrite (Qmult_comm p1 p2), (Qmult_comm p1 d).
    apply Qmult_le_compat_r; lra.
Qed.

Lemma pow2_Z (k : Z) : (0 <= k)%Z -> inject_Z (2 ^ k) == 2 ^ k.
Proof. intros H. rewrite Zpower_Qpower by exact H. reflexivity. Qed.

Lemma ilog2_candidate (q : Q) :
  0 < q ->
  let c := (Z.log2 (Qnum q) - Z.log2 (Zpos (Qden q)))%Z in
  2 ^ (c - 1) <= q < 2 ^ (c + 1).
Proof.
  destruct q as [n d]. intros Hq c. subst c. cbn [Qnum Qden].
  assert (Hn : (0 < n)%Z) by (unfold Qlt in Hq; cbn in Hq; lia).
  pose proof (Z.log2_spec n Hn) as [Hn1 Hn2].
  pose proof (Z.log2_spec (Zpos d) (Pos2Z.is_pos d)) as [Hd1 Hd2].
  pose proof (Z.log2_nonneg n) as Hln.
  pose proof (Z.log2_nonneg (Zpos d)) as Hld.
  set (ln := Z.log2 n) in *. set (ld := Z.log2 (Zpos d)) in *.
  rewrite Zle_Qle, pow2_Z in Hn1, Hd1 by lia.
  rewrite Zlt_Qlt, pow2_Z in Hn2, Hd2 by lia.
  assert (Hnz : ~ 2 == 0) by (intros H; discriminate H).
  pose proof (pow2_pos ln). pose proof (pow2_pos ld).
  pose proof (pow2_pos (Z.succ ln)). pose proof (pow2_pos (Z.succ ld)).
  rewrite (Qmake_Qdiv n d).
  replace (ln - ld - 1)%Z with (ln - Z.succ ld)%Z by lia.
  replace (ln - ld + 1)%Z with (Z.succ ln - ld)%Z by lia.
  rewrite !Qpower_minus by exact Hnz.
  split.
  - apply frac_le; lra.
  - apply frac_lt; lra.
Qed.

Lemma ilog2_spec (q : Q) : 0 < q -> 2 ^ ilog2 q <= q < 2 ^ (ilog2 q + 1).
Proof.
  intros Hq. destruct (ilog2_candidate q Hq) as [H1 H2]. unfold ilog2.
  set (c := (Z.log2 (Qnum q) - Z.log2 (Zpos (Qden q)))%Z) in *.
  destruct (Qle_bool (2 ^ c) q) eqn:Hc; qprop.
  - split; assumption.
  - replace (c - 1 + 1)%Z with c by lia. split; [exact H1 | exact Hc].
Qed.

Lemma ilog2_mono (x y : Q) : 0 < x -> x <= y -> (ilog2 x <= ilog2 y)%Z.
Proof.
  intros Hx Hxy.
  destruct (ilog2_spec x Hx) as [H1 _].
  destruct (ilog2_spec y) as [_ H2]; [lra|].
  assert (H : 2 ^ ilog2 x < 2 ^ (ilog2 y + 1)) by lra.
  apply Qpower_lt_compat_l_inv in H; [lia | reflexivity].
Qed.

Lemma ulp_exponent_mono (x y : Q) :
  0 < Qabs x -> Qabs x <= Qabs y -> (ulp_exponent x <= ulp_exponent y)%Z.
Proof.
  intros Hx Hxy. unfold ulp_exponent.
  pose proof (ilog2_mono _ _ Hx Hxy). lia.
Qed.

(** Between two numbers of different binades lies a power of two that both
    grids contain. *)
Lemma binade_boundary (x y : Q) :
  0 < x -> x <= y -> ulp_exponent x <> ulp_exponent y ->
  let k := ilog2 y in
  (ulp_exponent x <= k)%Z /\ (ulp_exponent y <= k)%Z /\ x <= 2 ^ k <= y.
Proof.
  intros Hx Hxy Hne k.
  assert (Hy : 0 < y) by lra.
  assert (Ax : Qabs x == x) by (apply Qabs_pos; lra).
  assert (Ay : Qabs y == y) by (apply Qabs_pos; lra).
  assert (Hix : ilog2 (Qabs x) = ilog2 x).
  { apply Z.le_antisymm; apply ilog2_mono; lra. }
  assert (Hiy : ilog2 (Qabs y) = ilog2 y).
  { apply Z.le_antisymm; apply ilog2_mono; lra. }
  pose proof (ilog2_mono x y Hx Hxy) as Hm.
  unfold ulp_exponent in *. rewrite Hix, Hiy in *. fold k in Hm, Hne |- *.
  assert (Hlt : (ilog2 x < k)%Z) by lia.
  destruct (ilog2_spec x Hx) as [_ Hx2].
  destruct (ilog2_spec y Hy) as [Hy1 _]. fold k in Hy1.
  assert (Hp : 2 ^ (ilog2 x + 1) <= 2 ^ k)
    by (apply Qpower_le_compat_l; [lia | discriminate]).
  repeat split; try lia; lra.
Qed.

(** ** Rounding to binary64 is monotone *)

Lemma round_binary64_mono (x y : Q) :
  x <= y -> round_binary64 x <= round_binary64 y.
Proof.
  intros Hxy. unfold round_binary64.
  destruct (Z.eq_dec (ulp_exponent x) (ulp_exponent y)) as [He|Hne].
  { rewrite He. apply round_at_mono, Hxy. }
  assert (Hsep : exists n k, (ulp_exponent x <= k)%Z /\ (ulp_exponent y <= k)%Z
                   /\ x <= inject_Z n * 2 ^ k <= y).
  { destruct (Qlt_le_dec 0 x) as [Hx|Hx].
    - destruct (binade_boundary x y Hx Hxy Hne) as (H1 & H2 & H3).
      exists 1%Z, (ilog2 y). repeat split; try assumption;
        change (inject_Z 1) with 1; lra.
    - destruct (Qlt_le_dec y 0) as [Hy|Hy].
      + assert (Ex : ulp_exponent (- x) = ulp_exponent x).
        { unfold ulp_exponent. f_equal. f_equal.
          apply Z.le_antisymm; apply ilog2_mono;
            rewrite ?Qabs_opp; try lra;
            apply Qabs_case; intros; lra. }
        assert (Ey : ulp_exponent (- y) = ulp_exponent y).
        { unfold ulp_exponent. f_equal. f_equal.
          apply Z.le_antisymm; apply ilog2_mono;
            rewrite ?Qabs_opp; try lra;
            apply Qabs_case; intros; lra. }
        destruct (binade_boundary (- y) (- x)) as (H1 & H2 & H3);
          [lra | lra | congruence |].
        rewrite Ex, Ey in *.
        exists (-1)%Z, (ilog2 (- x)). repeat split; try assumption;
          change (inject_Z (-1)) with (-1); lra.
      + exists 0%Z, (Z.max (ulp_exponent x) (ulp_exponent y)).
        repeat split; try lia; change (inject_Z 0) with 0; lra. }
  destruct Hsep as (n & k & Hx & Hy & Hlo & Hhi).
  apply Qle_trans with (inject_Z n * 2 ^ k).
  - apply round_at_below; assumption.
  - apply round_at_above; assumption.
Qed.

Lemma round_binary64_comp (x y : Q) :
  x == y -> round_binary64 x == round_binary64 y.
Proof.
  intros H. apply Qle_antisym; apply round_binary64_mono; rewrite H; lra.
Qed.

(** ** Exact arithmetic is the identity rounding *)

Lemma exact_is_identity_rounding
    (tf_results : list (string * TimeframeResult)) (weights : gmap string Q) :
  fl_aggregate_signals (fun q => q) tf_results weights
  = aggregate_signals tf_results weights.
Proof.
  unfold fl_aggregate_signals, aggregate_signals.
  change (fl_agg_loop (fun q => q) weights tf_results)
    with (agg_loop weights tf_results).
  destruct (Qeq_bool (weight_sum (agg_loop weights tf_results)) 0) eqn:Hz;
    [reflexivity|].
  unfold py_div. rewrite Hz. reflexivity.
Qed.

(** ** Confidence *)

Lemma fl_confidence_floor (rnd : Q -> Q) (a : Q) :
  fl_confidence_of_avg rnd a
  = Qfloor (clamp (rnd (rnd (Qabs a * 100) + 10)) 10 95)
  /\ (10 <= fl_confidence_of_avg rnd a <= 95)%Z.
Proof.
  unfold fl_confidence_of_avg.
  set (x := rnd (rnd (Qabs a * 100) + 10)).
  change (Qmin 95 (Qmax 10 x)) with (clamp x 10 95).
  pose proof (clamp_bounds x) as [Hlo Hhi].
  rewrite py_int_floor by lra.
  split; [reflexivity|]. split.
  - change 10%Z with (Qfloor 10). apply Qfloor_resp_le, Hlo.
  - change 95%Z with (Qfloor 95). apply Qfloor_resp_le, Hhi.
Qed.

Lemma fl_aggregate_nonzero (rnd : Q -> Q)
    (tf_results : list (string * TimeframeResult)) (weights : gmap string Q) :
  let st := fl_agg_loop rnd weights tf_results in
  ~ weight_sum st == 0 ->
  fl_aggregate_signals rnd tf_results weights
  = Ok {| final_signal := final_of_avg (rnd (total st / weight_sum st));
          confidence := fl_confidence_of_avg rnd (rnd (total st / weight_sum st));
          avg := Some (rnd (total st / weight_sum st));
          details := acc_details st |}.
Proof.
  intros st Hnz. destruct (agg_not_zero st Hnz) as [Hdiv Hz].
  unfold fl_aggregate_signals. fold st. rewrite Hz, Hdiv. reflexivity.
Qed.

(** C1, amended: whenever the weight sum is not zero the aggregator returns
    a result whose confidence is the integer part (truncation, not rounding
    to the nearest integer) of clamp(|avg| * 100 + 10, 10, 95), where avg is
    the rounded quotient total / weight sum and the product and the sum are
    the program's rounded operations; it lies between 10 and 95.  This holds
    for every rounding of the operations, binary64 included.  In binary64,
    for the two-timeframe input M15 BUY 40, H4 SELL -50 the signal is HOLD
    and the confidence is 28. *)
Theorem confidence_is_truncation :
  (forall (rnd : Q -> Q) tf_results weights,
     let st := fl_agg_loop rnd weights tf_results in
     ~ weight_sum st == 0 ->
     exists d a,
       fl_aggregate_signals rnd tf_results weights = Ok d
       /\ avg d = Some a
       /\ a = rnd (total st / weight_sum st)
       /\ confidence d = Qfloor (clamp (rnd (rnd (Qabs a * 100) + 10)) 10 95)
       /\ (10 <= confidence d <= 95)%Z)
  /\ (exists d, aggregate_signals_binary64 scenario_3 = Ok d
              /\ final_signal d = HOLD
              /\ confidence d = 28%Z).
Proof.
  split.
  - intros rnd tf_results weights st Hnz.
    rewrite (fl_aggregate_nonzero rnd tf_results weights Hnz). fold st.
    do 2 eexists. split; [reflexivity|]. split; [reflexivity|].
    split; [reflexivity|]. cbn [confidence].
    apply fl_confidence_floor.
  - eexists. split; [vm_compute; reflexivity|]. split; reflexivity.
Qed.

Lemma confidence_is_truncation_witness :
  ~ weight_sum (fl_agg_loop round_binary64 TF_WEIGHTS_binary64 scenario_3) == 0
  /\ exists d a,
       aggregate_signals_binary64 scenario_3 = Ok d
       /\ avg d = Some a
       /\ confidence d = Qfloor (clamp (round_binary64
                                          (round_binary64 (Qabs a * 100) + 10))
                                       10 95).
Proof.
  assert (Hnz : ~ weight_sum (fl_agg_loop round_binary64 TF_WEIGHTS_binary64
                                scenario_3) == 0)
    by (apply Qeq_bool_false; vm_compute; reflexivity).
  split; [exact Hnz|].
  destruct (proj1 confidence_is_truncation round_binary64 scenario_3
              TF_WEIGHTS_binary64 Hnz) as (d & a & Hd & Ha & _ & Hc & _).
  exists d, a. auto.
Defined.

(** What the program returns on three inputs, float operation by float
    operation: the scenario of the specification, a single BUY of score 35 at
    M15, and a BUY of score 85 at M5 against a SELL of score -50 at M15,
    whose avg is the float just below 0.25. *)
Lemma binary64_examples :
  (exists d, aggregate_signals_binary64 scenario_3 = Ok d
     /\ final_signal d = HOLD /\ confidence d = 28%Z
     /\ option_map Qred (avg d)
        = Some (-3367909286555327 # 18014398509481984))
  /\ (exists d, aggregate_signals_binary64
                  [("M15"%string, result_with BUY 35)] = Ok d
        /\ final_signal d = BUY /\ confidence d = 44%Z
        /\ option_map Qred (avg d)
           = Some (6305039478318693 # 18014398509481984))
  /\ (exists d, aggregate_signals_binary64
                  [("M5"%string, result_with BUY 85);
                   ("M15"%string, result_with SELL (-50))] = Ok d
        /\ final_signal d = HOLD /\ confidence d = 35%Z
        /\ option_map Qred (avg d)
           = Some (9007199254740991 # 36028797018963968)).
Proof.
  split; [|split]; eexists; (split; [vm_compute; reflexivity|]);
    repeat split; vm_compute; reflexivity.
Qed.

(** ** Never raising, and the confidence of each signal *)

Lemma fl_confidence_bands (rnd : Q -> Q) (a : Q) :
  (forall x y, x <= y -> rnd x <= rnd y) ->
  rnd 25 == 25 -> rnd 35 == 35 ->
  (final_of_avg a = HOLD -> (fl_confidence_of_avg rnd a <= 35)%Z)
  /\ (final_of_avg a <> HOLD -> (35 <= fl_confidence_of_avg rnd a)%Z).
Proof.
  intros Hmono H25 H35.
  destruct (fl_confidence_floor rnd a) as [-> _].
  set (x := rnd (rnd (Qabs a * 100) + 10)).
  assert (Hle : Qabs a * 100 <= 25 -> x <= 35).
  { intros H. unfold x. rewrite <- H35. apply Hmono.
    apply Hmono in H. rewrite H25 in H. lra. }
  assert (Hge : 25 <= Qabs a * 100 -> 35 <= x).
  { intros H. unfold x. rewrite <- H35. apply Hmono.
    apply Hmono in H. rewrite H25 in H. lra. }
  unfold final_of_avg. split.
  - destruct (Qle_bool 0.25 a) eqn:H1; [discriminate|].
    destruct (Qle_bool a (-0.25)) eqn:H2; [discriminate|]. intros _. qprop.
    assert (Hx : x <= 35).
    { apply Hle. destruct (Qabs_spec a) as [[A1 A2]|[A1 A2]]; lra. }
    change 35%Z with (Qfloor 35). apply Qfloor_resp_le. unfold clamp.
    destruct (Q.min_spec 95 (Qmax 10 x)) as [[M1 M2]|[M1 M2]];
      destruct (Q.max_spec 10 x) as [[X1 X2]|[X1 X2]]; lra.
  - intros Hne.
    assert (Hx : 35 <= x).
    { apply Hge. destruct (Qabs_spec a) as [[A1 A2]|[A1 A2]];
        destruct (Qle_bool 0.25 a) eqn:H1;
        [| destruct (Qle_bool a (-0.25)) eqn:H2; [|contradiction]
         | | destruct (Qle_bool a (-0.25)) eqn:H2; [|contradiction]];
        qprop; lra. }
    change 35%Z with (Qfloor 35). apply Qfloor_resp_le. unfold clamp.
    destruct (Q.min_spec 95 (Qmax 10 x)) as [[M1 M2]|[M1 M2]];
      destruct (Q.max_spec 10 x) as [[X1 X2]|[X1 X2]]; lra.
Qed.

(** X11: in binary64 arithmetic the aggregator never raises, whatever the
    weights are: a weight sum of zero takes the early return, every other
    sum is a legal divisor.  The confidence always lies between 10 and 95;
    it is at most 35 when the final signal is HOLD and at least 35 when it
    is BUY or SELL.  The key avg is missing exactly when the weight sum is
    zero.  A HOLD with confidence 35 does occur: M5 BUY 85 against M15
    SELL -50 with the shipped weights. *)
Theorem aggregate_signals_binary64_total :
  (forall (tf_results : list (string * TimeframeResult))
          (weights : gmap string Q),
     exists d,
       fl_aggregate_signals round_binary64 tf_results weights = Ok d
       /\ (10 <= confidence d <= 95)%Z
       /\ (final_signal d = HOLD -> (confidence d <= 35)%Z)
       /\ (final_signal d <> HOLD -> (35 <= confidence d)%Z)
       /\ (avg d = None
           <-> weight_sum (fl_agg_loop round_binary64 weights tf_results) == 0))
  /\ (exists d, aggregate_signals_binary64
                  [("M5"%string, result_with BUY 85);
                   ("M15"%string, result_with SELL (-50))] = Ok d
        /\ final_signal d = HOLD /\ confidence d = 35%Z).
Proof.
  split.
  - intros tf_results weights.
    destruct (Qeq_bool (weight_sum (fl_agg_loop round_binary64 weights tf_results)) 0)
      eqn:Hz.
    + unfold fl_aggregate_signals. rewrite Hz.
      eexists. split; [reflexivity|]. cbn [confidence final_signal avg].
      qprop. repeat split; try lia; try congruence.
    + qprop. rewrite (fl_aggregate_nonzero round_binary64 tf_results weights Hz).
      eexists. split; [reflexivity|]. cbn [confidence final_signal avg].
      set (a := round_binary64 _).
      destruct (fl_confidence_floor round_binary64 a) as [_ Hb].
      destruct (fl_confidence_bands round_binary64 a round_binary64_mono)
        as [Hh Hn]; [reflexivity | reflexivity |].
      repeat split; try assumption; try apply Hb.
      * discriminate.
      * intros H. contradiction.
  - eexists. split; [vm_compute; reflexivity|]. split; reflexivity.
Qed.
